(** * Logo Remover: retry controller, positional descriptor and
      application state machine

    A shallow embedding of [services/geminiService] ([withRetry],
    [getPositionalDescription], the [catch] blocks of
    [removeObjectFromFrame] and [generateVideoFromFrame]), of [App.tsx]
    (the state variables, the five handlers, the progress effect and
    [renderContent]) and of the enabling conditions of the buttons in
    [FileUploader], [FrameSelector] and [ResultDisplay].

    Conventions of the embedding.
    - A JavaScript number is a binary64 double.  A finite double is a
      rational number, so the values are integers ([Z]: attempt index,
      delays, progress) and rationals ([Q]: pixel coordinates).  Where the
      code computes with numbers that come from outside (the seconds of a
      suggested delay, the coordinates of a selection, the sides of the
      image) the result of each operation is rounded as the doubles round
      it, to the nearest double with ties to the even mantissa
      ([Double.roundDouble] and [Double.fl]).  The range of the exponent is
      left out: there is no infinity and there are no subnormal numbers.
    - A promise is its settlement: [Ok v] for a fulfilled one, [Err e] for a
      rejected one.  An [async] function is cut at its [await]: the part
      before it and the part after it are two functions.
    - The state updates a handler makes between two [await]s are applied
      together, in the order of the source (React batches them). *)

From Stdlib Require Import Strings.String Strings.Ascii ZArith QArith List Bool Lia Lqa.
From Stdlib Require Import DecimalString DecimalN Qminmax Qabs Qround Qpower.
Import ListNotations.
Close Scope Q_scope.
Open Scope string_scope.

(** ** JavaScript values and strings *)

Module Js.

(** [s.includes(sub)] *)
Fixpoint includes (s sub : string) : bool :=
  if prefix sub s then true
  else match s with
       | EmptyString => false
       | String _ s' => includes s' sub
       end.

(** [s.startsWith(p)] *)
Definition startsWith (s p : string) : bool := prefix p s.

(** A value that is thrown: an [Error] object with its [name] and
    [message], or anything else, known by the text [String(v)] gives. *)
Inductive Thrown : Type :=
| JsError (name message : string)
| JsOther (text : string).

(** [new Error(message)] *)
Definition newError (message : string) : Thrown := JsError "Error" message.

(** [e instanceof Error] *)
Definition instanceofError (e : Thrown) : bool :=
  match e with JsError _ _ => true | JsOther _ => false end.

(** [String(e)]; for an [Error] this is [Error.prototype.toString]. *)
Definition toString (e : Thrown) : string :=
  match e with
  | JsError name message =>
      if (name =? "")%string then message
      else if (message =? "")%string then name
      else name ++ ": " ++ message
  | JsOther text => text
  end.

(** The settlement of a promise. *)
Inductive Outcome (T : Type) : Type :=
| Ok (value : T)
| Err (error : Thrown).
Arguments Ok {T} value.
Arguments Err {T} error.

(** Truthiness of a [string | null]. *)
Definition truthy (v : option string) : bool :=
  match v with
  | Some s => negb (s =? "")%string
  | None => false
  end.

End Js.
Import Js.

(** ** The arithmetic of the doubles *)

Module Double.

Local Open Scope Z_scope.

(** The double nearest to the integer [z], for [0 <= z]: up to 2^53 every
    integer is a double; from there on the doubles between 2^(52+k) and
    2^(53+k) are the multiples of 2^k, and [z] goes to the nearest one, a
    tie to the one with the even mantissa. *)
Definition roundDouble (z : Z) : Z :=
  if z <? 2 ^ 53 then z
  else
    let k := Z.log2 z - 52 in
    let q := z / 2 ^ k in
    let r := z mod 2 ^ k in
    let half := 2 ^ (k - 1) in
    let m := if r <? half then q
             else if half <? r then q + 1
             else if Z.even q then q else q + 1 in
    m * 2 ^ k.

(** [a * b] and [a + b] on doubles that are integers, [0 <= a] and
    [0 <= b]. *)
Definition mulZ (a b : Z) : Z := roundDouble (a * b).
Definition addZ (a b : Z) : Z := roundDouble (a + b).

(** [2^e] as a rational, for any integer [e]. *)
Definition pow2 (e : Z) : Q := (2 ^ e)%Q.

(** The exponent of [a], for [0 < a]: the [e] with [2^e <= a < 2^(e+1)]. *)
Definition exponentOf (a : Q) : Z :=
  let e0 := Z.log2 (Qnum a) - Z.log2 (Zpos (Qden a)) in
  if Qle_bool (pow2 e0) a then e0 else e0 - 1.

(** The integer nearest to [s], a tie to the even one. *)
Definition nearestEven (s : Q) : Z :=
  let f := Qfloor s in
  match Qcompare (s - inject_Z f) (1 # 2) with
  | Lt => f
  | Gt => f + 1
  | Eq => if Z.even f then f else f + 1
  end.

(** The double nearest to the rational [q]: a mantissa of 53 bits, that is
    an integer from 2^52 up to 2^53, times the power of two that brings it
    to the size of [q]. *)
Definition fl (q : Q) : Q :=
  match Qcompare q 0 with
  | Eq => 0%Q
  | c =>
      let a := Qabs q in
      let ulp := pow2 (exponentOf a - 52) in
      let m := inject_Z (nearestEven (a / ulp)) in
      Qred (match c with Lt => - (m * ulp) | _ => m * ulp end)%Q
  end.

(** [a + b], [a - b], [a * b] and [a / b] on doubles: the exact result,
    rounded. *)
Definition add (a b : Q) : Q := fl (a + b)%Q.
Definition sub (a b : Q) : Q := fl (a - b)%Q.
Definition mul (a b : Q) : Q := fl (a * b)%Q.
Definition div (a b : Q) : Q := fl (a / b)%Q.

(** [q] is a double: rounding leaves it as it is. The result of an
    operation is computed without rounding when the exact result is a
    double. *)
Definition representable (q : Q) : Prop := (fl q == q)%Q.

End Double.

(** ** The retry controller *)

Module Retry.

Local Open Scope Z_scope.

Definition MAX_RETRIES : Z := 3.

(** The double quote, which the pattern of the retry delay contains. *)
Definition dquote : ascii := "034"%char.

(** The literal part of the pattern: the quoted key retryDelay, a colon
    and the quote that opens the value. *)
Definition retryDelayKey : string :=
  String dquote ("retryDelay" ++ String dquote (":" ++ String dquote "")).

(** [\d] *)
Definition isDigit (c : ascii) : bool :=
  ((48 <=? nat_of_ascii c) && (nat_of_ascii c <=? 57))%nat.

(** [(\d+)] is greedy: the longest run of digits at the head of [s]. *)
Fixpoint takeDigits (s : string) : string :=
  match s with
  | String c s' => if isDigit c then String c (takeDigits s') else ""
  | EmptyString => ""
  end.

(** What follows [p] in [s], when [s] starts with [p]. *)
Fixpoint stripPrefix (p s : string) : option string :=
  match p, s with
  | EmptyString, _ => Some s
  | String a p', String b s' => if Ascii.eqb a b then stripPrefix p' s' else None
  | String _ _, EmptyString => None
  end.

(** The pattern tried at the head of [s]: the capture group, if it matches. *)
Definition matchHere (s : string) : option string :=
  match stripPrefix retryDelayKey s with
  | Some rest =>
      match takeDigits rest with
      | EmptyString => None
      | ds => Some ds
      end
  | None => None
  end.

(** [errorString.match] with the pattern of the key followed by [(\d+)]:
    the leftmost match; the result is [match[1]], [None] stands for
    [null]. *)
Fixpoint matchRetryDelay (s : string) : option string :=
  match matchHere s with
  | Some ds => Some ds
  | None =>
      match s with
      | EmptyString => None
      | String _ s' => matchRetryDelay s'
      end
  end.

Definition digitValue (c : ascii) : Z := Z.of_nat (nat_of_ascii c) - 48.

Fixpoint parseDigits (acc : Z) (s : string) : Z :=
  match s with
  | EmptyString => acc
  | String c s' => parseDigits (acc * 10 + digitValue c) s'
  end.

(** [parseInt(ds, 10)] on a capture of [(\d+)], a non-empty string of
    digits: the double nearest to the number the digits write. (Past 20
    digits an engine may read the further digits as zeros; the theorems
    that give a value stay below 2^53, which has 16 digits.) *)
Definition parseInt (ds : string) : Z := Double.roundDouble (parseDigits 0 ds).

(** The [isQuotaError] of [withRetry]. *)
Definition isQuotaError (errorString : string) : bool :=
  includes errorString "429" || includes errorString "RESOURCE_EXHAUSTED".

(** The [delay] of [withRetry] (lines 36 to 44) at attempt index [i]. The
    index is 0 or 1 where the delay is used, and [5000 * 2 ^ i] is a
    double. *)
Definition retryDelay (i : Z) (errorString : string) : Z :=
  let delay := 5000 * 2 ^ i in
  match matchRetryDelay errorString with
  | Some m1 => if negb (m1 =? "")%string then Double.addZ (Double.mulZ (parseInt m1) 1000) 500 else delay
  | None => delay
  end.

(** Every character of [s] is a digit. *)
Fixpoint allDigits (s : string) : bool :=
  match s with
  | EmptyString => true
  | String c s' => isDigit c && allDigits s'
  end.

(** The error text [s] carries a suggested delay after [pre]: the key, the
    digits [ds] of the seconds, and [rest], which does not go on with a
    digit. *)
Definition delayField (s pre ds rest : string) : Prop :=
  s = pre ++ retryDelayKey ++ ds ++ rest /\
  ds <> "" /\ allDigits ds = true /\ takeDigits rest = "".

(** The field after [pre] is the first one of [s]. *)
Definition firstDelayField (s pre ds rest : string) : Prop :=
  delayField s pre ds rest /\
  forall pre' ds' rest',
    delayField s pre' ds' rest' -> (String.length pre <= String.length pre')%nat.

(** The error text [s] carries no suggested delay. *)
Definition noDelayField (s : string) : Prop :=
  forall pre ds rest, ~ delayField s pre ds rest.

(** The error thrown once the loop is over. *)
Definition quotaExceeded (serviceName : string) : Thrown :=
  newError ("You have exceeded your API quota for " ++ serviceName ++
            ". After multiple retries, the service is still unavailable. Please check your plan and billing details, or try again later.").

(** What a run does, in order: a call of [apiCall], or a wait of so many
    milliseconds ([setTimeout]). The lines written to the console are not
    recorded. *)
Inductive Effect : Type :=
| Attempt
| Delay (ms : Z).


Definition delays (tr : list Effect) : list Z :=
  flat_map (fun e => match e with Delay ms => [ms] | _ => [] end) tr.

Section WithRetry.

(** The remote side is a state [W]; a call of [apiCall] settles and moves
    it. *)
Variables (W T : Type).
Variable apiCall : W -> Outcome T * W.
Variable serviceName : string.

(** The [for] loop of [withRetry] from index [i] on, with [remaining]
    iterations left ([remaining = MAX_RETRIES - i] in [withRetry]). *)
Fixpoint withRetryFrom (remaining : nat) (i : Z) (w : W) (tr : list Effect)
  : Outcome T * W * list Effect :=
  match remaining with
  | O => (Err (quotaExceeded serviceName), w, tr)
  | S remaining' =>
      let '(r, w1) := apiCall w in
      let tr1 := (tr ++ [Attempt])%list in
      match r with
      | Ok v => (Ok v, w1, tr1)
      | Err error =>
          let errorString := toString error in
          if negb (isQuotaError errorString) then (Err error, w1, tr1)
          else
            let tr2 := if i <? MAX_RETRIES - 1
                       then (tr1 ++ [Delay (retryDelay i errorString)])%list
                       else tr1 in
            withRetryFrom remaining' (i + 1) w1 tr2
      end
  end.

Definition withRetry (w : W) : Outcome T * W * list Effect :=
  withRetryFrom (Z.to_nat MAX_RETRIES) 0 w [].

End WithRetry.

Arguments withRetryFrom {W T} apiCall serviceName remaining i w tr.
Arguments withRetry {W T} apiCall serviceName w.

End Retry.

(** ** The positional descriptor *)

Module Position.

Local Open Scope Q_scope.

(** Modelled from the spec: the [Selection] type of [types.ts], which is
    not among the sources; a rectangle [{x, y, width, height}] in pixel
    coordinates. *)
Record Selection : Type := {
  x : Q;
  y : Q;
  width : Q;
  height : Q
}.

(** [a < b] on numbers. *)
Definition ltb (a b : Q) : bool := negb (Qle_bool b a).

Definition getPositionalDescription
    (selection : Selection) (imageWidth imageHeight : Q) : string :=
  let centerX := Double.add (x selection) (Double.div (width selection) 2) in
  let centerY := Double.add (y selection) (Double.div (height selection) 2) in
  let horizontalThird := Double.div imageWidth 3 in
  let verticalThird := Double.div imageHeight 3 in
  let verticalPos :=
    if ltb centerY verticalThird then "top"
    else if ltb (Double.mul verticalThird 2) centerY then "bottom"
    else "middle" in
  let horizontalPos :=
    if ltb centerX horizontalThird then "left"
    else if ltb (Double.mul horizontalThird 2) centerX then "right"
    else "center" in
  if (verticalPos =? "middle")%string && (horizontalPos =? "center")%string
  then "in the center"
  else if (verticalPos =? "middle")%string
  then "in the center " ++ horizontalPos
  else if (horizontalPos =? "center")%string
  then "in the " ++ verticalPos ++ " center"
  else "in the " ++ verticalPos ++ " " ++ horizontalPos ++ " area".

(** The nine phrases. *)
Definition phrases : list string :=
  [ "in the top left area"; "in the top center"; "in the top right area";
    "in the center left"; "in the center"; "in the center right";
    "in the bottom left area"; "in the bottom center";
    "in the bottom right area" ].

(** The thirds of a side of the image: the first, the middle and the last
    one. The middle third has its two ends. *)
Inductive Third : Type := First | Middle | Last.

(** The coordinate [c] lies in the third [t] of a side that is [size]
    long. *)
Definition inThird (t : Third) (c size : Q) : Prop :=
  match t with
  | First => c < size / 3
  | Middle => size / 3 <= c /\ c <= 2 * size / 3
  | Last => 2 * size / 3 < c
  end.

(** The third the code puts the computed coordinate [c] in, by its two
    comparisons in their order, [third] being the computed third of the
    side: the first third below [third], else the last one above twice
    [third], else the middle one. *)
Definition computedThird (t : Third) (c third : Q) : Prop :=
  match t with
  | First => c < third
  | Last => third <= c /\ Double.mul third 2 < c
  | Middle => third <= c /\ c <= Double.mul third 2
  end.

(** What the rounding of the center and of the two lines can add up to,
    and more: 2^-52 of the sizes that enter the computation, the start and
    the size of the selection along a side and the length of the side. *)
Definition slack (start size side : Q) : Q :=
  (Qabs start + Qabs size + Qabs side) * (1 # 4503599627370496).

(** The center [start + size / 2] is off the two lines of the thirds of
    the side by more than the slack. *)
Definition offTheLines (start size side : Q) : Prop :=
  slack start size side < Qabs (start + size / 2 - side / 3) /\
  slack start size side < Qabs (start + size / 2 - 2 * side / 3).

(** The phrase of each cell of the grid, by the third the center is in
    from the top and the third it is in from the left. *)
Definition cellPhrase (vertical horizontal : Third) : string :=
  match vertical, horizontal with
  | First, First => "in the top left area"
  | First, Middle => "in the top center"
  | First, Last => "in the top right area"
  | Middle, First => "in the center left"
  | Middle, Middle => "in the center"
  | Middle, Last => "in the center right"
  | Last, First => "in the bottom left area"
  | Last, Middle => "in the bottom center"
  | Last, Last => "in the bottom right area"
  end.

End Position.

(** ** The remote edit client: what its two operations throw *)

Module Client.

(** [removeObjectFromFrame], from the settlement [r] of its [withRetry]
    call on: the [try] returns a value as it is, the [catch] lets the
    quota error through and renames the others. *)
Definition removeObjectFromFrame (r : Outcome string) : Outcome string :=
  match r with
  | Ok data => Ok data
  | Err error =>
      match error with
      | JsError _ message =>
          if includes message "API quota" then Err error
          else if includes message "403"
          then Err (newError "API key is invalid or lacks permissions.")
          else Err (newError "Failed to process image with the AI model.")
      | JsOther _ => Err (newError "Failed to process image with the AI model.")
      end
  end.

(** The check of the download response in [generateVideoFromFrame] (lines
    194 to 200): [None] when the response is ok, the error thrown
    otherwise; [status] is the status as the template prints it. *)
Definition downloadFailure (ok : bool) (errorText status : string) : option Thrown :=
  if negb ok then
    if includes errorText "Requested entity was not found."
    then Some (newError "API key not found. Please select your API key again.")
    else Some (newError ("Failed to download the generated video. Status: " ++ status))
  else None.

(** [generateVideoFromFrame], from the settlement [r] of its [withRetry]
    call on. *)
Definition generateVideoFromFrame (r : Outcome string) : Outcome string :=
  match r with
  | Ok url => Ok url
  | Err error =>
      let errorString := toString error in
      if includes errorString "API quota" || includes errorString "API key not found"
      then (if instanceofError error then Err error else Err (newError errorString))
      else if includes errorString "404" || includes errorString "NOT_FOUND"
      then Err (newError "API key not found or project is not configured for Veo. Please select a valid API key again.")
      else if includes errorString "403" || includes errorString "API_KEY_INVALID"
      then Err (newError "API key is invalid or lacks permissions for the Veo model.")
      else Err (newError "Failed to generate video with the AI model.")
  end.

End Client.

(** ** The application state machine *)

Module AppState.

Inductive t : Type :=
| idle | video_loaded | processing | generating_video
| complete | video_complete | error.

Definition eqb (a b : t) : bool :=
  match a, b with
  | idle, idle | video_loaded, video_loaded | processing, processing
  | generating_video, generating_video | complete, complete
  | video_complete, video_complete | error, error => true
  | _, _ => false
  end.

End AppState.

Module App.

Local Open Scope Z_scope.

(** An uploaded file, as far as the code looks at it: its [type]. *)
Record File : Type := { fileName : string; fileType : string }.

(** The state variables of [App]; [None] is [null]. *)
Record State : Type := mkState {
  appState : AppState.t;
  videoFile : option File;
  frameSrc : option string;
  selection : option Position.Selection;
  processedImageSrc : option string;
  processedVideoUrl : option string;
  isApiKeySelected : option bool;
  error : option string;
  isQuotaError : bool;
  progress : Z
}.

Definition initialState : State :=
  mkState AppState.idle None None None None None None None false 0.

Definition setAppState (v : AppState.t) (s : State) : State :=
  mkState v (videoFile s) (frameSrc s) (selection s) (processedImageSrc s) (processedVideoUrl s) (isApiKeySelected s) (error s) (isQuotaError s) (progress s).

Definition setVideoFile (v : option File) (s : State) : State :=
  mkState (appState s) v (frameSrc s) (selection s) (processedImageSrc s) (processedVideoUrl s) (isApiKeySelected s) (error s) (isQuotaError s) (progress s).

Definition setFrameSrc (v : option string) (s : State) : State :=
  mkState (appState s) (videoFile s) v (selection s) (processedImageSrc s) (processedVideoUrl s) (isApiKeySelected s) (error s) (isQuotaError s) (progress s).

Definition setSelection (v : option Position.Selection) (s : State) : State :=
  mkState (appState s) (videoFile s) (frameSrc s) v (processedImageSrc s) (processedVideoUrl s) (isApiKeySelected s) (error s) (isQuotaError s) (progress s).

Definition setProcessedImageSrc (v : option string) (s : State) : State :=
  mkState (appState s) (videoFile s) (frameSrc s) (selection s) v (processedVideoUrl s) (isApiKeySelected s) (error s) (isQuotaError s) (progress s).

Definition setProcessedVideoUrl (v : option string) (s : State) : State :=
  mkState (appState s) (videoFile s) (frameSrc s) (selection s) (processedImageSrc s) v (isApiKeySelected s) (error s) (isQuotaError s) (progress s).

Definition setIsApiKeySelected (v : option bool) (s : State) : State :=
  mkState (appState s) (videoFile s) (frameSrc s) (selection s) (processedImageSrc s) (processedVideoUrl s) v (error s) (isQuotaError s) (progress s).

Definition setError (v : option string) (s : State) : State :=
  mkState (appState s) (videoFile s) (frameSrc s) (selection s) (processedImageSrc s) (processedVideoUrl s) (isApiKeySelected s) v (isQuotaError s) (progress s).

Definition setIsQuotaError (v : bool) (s : State) : State :=
  mkState (appState s) (videoFile s) (frameSrc s) (selection s) (processedImageSrc s) (processedVideoUrl s) (isApiKeySelected s) (error s) v (progress s).

Definition setProgress (v : Z) (s : State) : State :=
  mkState (appState s) (videoFile s) (frameSrc s) (selection s) (processedImageSrc s) (processedVideoUrl s) (isApiKeySelected s) (error s) (isQuotaError s) v.

(** Updates applied in the order they are written. *)
Notation "s |> f" := (f s) (at level 45, left associativity, only parsing).

(** *** The progress effect (its dependency is [appState]) *)

(** The values the four timers of the effect will set, in the order of
    their times (200, 800, 2000 and 4000 ms). *)
Definition progressSchedule : list Z := [15; 40; 75; 90].

(** One run of the effect after a commit: [prev] is the [appState] of the
    commit before, [timers] the timers still to fire. With [appState]
    unchanged nothing runs; otherwise the cleanup clears the timers and the
    body runs for the new [appState]. *)
Definition progressEffect (prev : AppState.t) (s : State) (timers : list Z)
  : State * list Z :=
  if AppState.eqb prev (appState s) then (s, timers)
  else
    match appState s with
    | AppState.processing => (s |> setProgress 0, progressSchedule)
    | _ => (s |> setProgress 0, [])
    end.

(** *** The handlers *)

(** [handleChangeApiKey]; [aistudio] is [None] when [window.aistudio] has
    no [openSelectKey], and otherwise what [hasSelectedApiKey] answers once
    the dialog is closed. *)
Definition handleChangeApiKey (aistudio : option bool) (s : State) : State :=
  match aistudio with
  | Some hasKey =>
      let s1 := s |> setIsApiKeySelected (Some hasKey) in
      if hasKey && isQuotaError s then
        let s2 := s1 |> setIsQuotaError false |> setError None in
        if truthy (processedImageSrc s) then s2 |> setAppState AppState.complete
        else if truthy (frameSrc s) then s2 |> setAppState AppState.video_loaded
        else s2
      else s1
  | None => s
  end.

(** [handleFileSelect] up to its [await]. *)
Definition handleFileSelect_start (file : File) (s : State) : State :=
  s |> setVideoFile (Some file) |> setAppState AppState.processing
    |> setError None |> setIsQuotaError false.

(** [handleFileSelect] after [extractFrame] has settled with [r]. *)
Definition handleFileSelect_settle (r : Outcome string) (s : State) : State :=
  match r with
  | Ok frameDataUrl =>
      s |> setFrameSrc (Some frameDataUrl) |> setAppState AppState.video_loaded
  | Err _ =>
      s |> setError (Some "Failed to load video or extract frame. Please try another file.")
        |> setAppState AppState.error
  end.

Fixpoint untilComma (s : string) : string :=
  match s with
  | EmptyString => ""
  | String c s' => if Ascii.eqb c ","%char then "" else String c (untilComma s')
  end.

Fixpoint afterComma (s : string) : option string :=
  match s with
  | EmptyString => None
  | String c s' => if Ascii.eqb c ","%char then Some s' else afterComma s'
  end.

(** [src.split(',')[1]]; [None] is [undefined]. *)
Definition splitComma1 (src : string) : option string :=
  option_map untilComma (afterComma src).

(** A remote call that has been made and has not settled yet. *)
Inductive Call : Type :=
| ExtractFrame (file : File)
| RemoveObject (base64Image : option string) (selection : Position.Selection)
| GenerateVideo (base64Image : option string).

(** [handleRemoveLogo] up to its [await]: [None] when it returns at once,
    otherwise the updated state and the call it makes. *)
Definition handleRemoveLogo_start (s : State) : option (State * Call) :=
  match frameSrc s, selection s with
  | Some src, Some sel =>
      if truthy (Some src) then
        Some (s |> setAppState AppState.processing |> setError None
                |> setIsQuotaError false,
              RemoveObject (splitComma1 src) sel)
      else None
  | _, _ => None
  end.

(** [e instanceof Error ? e.message : 'An unknown error occurred.'] *)
Definition errorMessageOf (e : Thrown) : string :=
  match e with
  | JsError _ message => message
  | JsOther _ => "An unknown error occurred."
  end.

(** [handleRemoveLogo] after [removeObjectFromFrame] has settled with [r]. *)
Definition handleRemoveLogo_settle (r : Outcome string) (s : State) : State :=
  match r with
  | Ok resultBase64 =>
      s |> setProgress 100
        |> setProcessedImageSrc (Some ("data:image/png;base64," ++ resultBase64))
        |> setAppState AppState.complete
  | Err e =>
      let s1 := s |> setProgress 0 in
      let errorMessage := errorMessageOf e in
      let s2 := if includes errorMessage "API quota"
                then s1 |> setIsQuotaError true else s1 in
      s2 |> setError (Some errorMessage) |> setAppState AppState.error
  end.

(** [handleGenerateVideo] up to its [await]. *)
Definition handleGenerateVideo_start (s : State) : option (State * Call) :=
  match processedImageSrc s with
  | Some src =>
      if truthy (Some src) then
        Some (s |> setAppState AppState.generating_video |> setError None
                |> setIsQuotaError false,
              GenerateVideo (splitComma1 src))
      else None
  | None => None
  end.

(** [handleGenerateVideo] after [generateVideoFromFrame] has settled with
    [r]. *)
Definition handleGenerateVideo_settle (r : Outcome string) (s : State) : State :=
  match r with
  | Ok videoUrl =>
      s |> setProcessedVideoUrl (Some videoUrl)
        |> setAppState AppState.video_complete
  | Err e =>
      let errorMessage := errorMessageOf e in
      let s1 := if includes errorMessage "API quota"
                   || includes errorMessage "API key not found"
                then s |> setIsQuotaError true else s in
      let s2 := if includes errorMessage "API key not found"
                then s1 |> setIsApiKeySelected (Some false) else s1 in
      s2 |> setError (Some errorMessage) |> setAppState AppState.error
  end.

Definition handleReset (s : State) : State :=
  s |> setAppState AppState.idle |> setVideoFile None |> setFrameSrc None
    |> setSelection None |> setProcessedImageSrc None
    |> setProcessedVideoUrl None |> setError None |> setIsQuotaError false
    |> setProgress 0.

(** The check of the credential made on mount; [aistudio] as in
    [handleChangeApiKey]. *)
Definition checkApiKey (aistudio : option bool) (s : State) : State :=
  match aistudio with
  | Some hasKey => s |> setIsApiKeySelected (Some hasKey)
  | None => s |> setIsApiKeySelected (Some true)
  end.

(** *** What is on the screen *)

(** The element [renderContent] returns, with the props that decide which
    buttons it offers. *)
Inductive View : Type :=
| FileUploaderView
| FrameSelectorView (frameSrc : string) (selection : option Position.Selection)
| LoaderView (message : string) (progress : option Z)
| ResultDisplayView (originalSrc processedImageSrc : string)
    (processedVideoUrl : option string) (isApiKeySelected : option bool)
| QuotaErrorPanel
| ErrorPanel (error : option string)
| Blank.

Definition renderContent (s : State) : View :=
  match appState s with
  | AppState.idle => FileUploaderView
  | AppState.video_loaded =>
      match frameSrc s with
      | Some src => if truthy (Some src)
                    then FrameSelectorView src (selection s) else Blank
      | None => Blank
      end
  | AppState.processing =>
      LoaderView "Analyzing image and removing object with AI..." (Some (progress s))
  | AppState.generating_video =>
      LoaderView "Generating video from your edited frame..." None
  | AppState.complete =>
      match frameSrc s, processedImageSrc s with
      | Some src, Some img =>
          if truthy (Some src) && truthy (Some img)
          then ResultDisplayView src img None (isApiKeySelected s) else Blank
      | _, _ => Blank
      end
  | AppState.video_complete =>
      match frameSrc s, processedImageSrc s, processedVideoUrl s with
      | Some src, Some img, Some url =>
          if truthy (Some src) && truthy (Some img) && truthy (Some url)
          then ResultDisplayView src img (Some url) (isApiKeySelected s)
          else Blank
      | _, _, _ => Blank
      end
  | AppState.error =>
      if isQuotaError s then QuotaErrorPanel else ErrorPanel (error s)
  end.

(** The [disabled] of the button of [FrameSelector]. *)
Definition removeDisabled (selection : option Position.Selection) : bool :=
  match selection with
  | None => true
  | Some sel => Position.ltb (Position.width sel) 5
                || Position.ltb (Position.height sel) 5
  end.

(** [ResultDisplay] shows the button that generates the video. *)
Definition offersGenerateVideo (v : View) : bool :=
  match v with
  | ResultDisplayView _ _ url key =>
      negb (truthy url) && match key with Some true => true | _ => false end
  | _ => false
  end.

(** The view has a button that starts over. *)
Definition offersReset (v : View) : bool :=
  match v with
  | ResultDisplayView _ _ _ _ | QuotaErrorPanel | ErrorPanel _ => true
  | _ => false
  end.

(** *** The application, with the call in flight and the timers *)

Record Sys : Type := mkSys {
  state : State;
  inFlight : option Call;
  timers : list Z
}.

Definition initialSys : Sys := mkSys initialState None [].

(** What the user does and what the environment answers. *)
Inductive Event : Type :=
| KeyChecked (aistudio : option bool)
| ChooseFile (file : File)
| DrawSelection (sel : Position.Selection)
| ClickRemoveObject
| ClickGenerateVideo
| ClickStartOver
| ClickChangeKey (aistudio : option bool)
| Settle (r : Outcome string)
| TimerFires.

(** The state [s'] is committed and the progress effect runs. *)
Definition commit (sys : Sys) (s' : State) (call : option Call) : Sys :=
  let '(s'', timers') := progressEffect (appState (state sys)) s' (timers sys) in
  mkSys s'' call timers'.

(** One event. [handleChangeApiKey] is one event: its dialog and its check
    settle before anything else happens. An event the screen does not offer (a button that is not
    rendered or is disabled, a settlement with no call in flight, a timer
    when none is set) changes nothing. [Settle r] carries the settlement of
    [extractFrame], or of the [withRetry] call inside the operation of the
    client that is in flight. *)
Definition step (sys : Sys) (ev : Event) : Sys :=
  let s := state sys in
  match ev with
  | KeyChecked aistudio => commit sys (checkApiKey aistudio s) (inFlight sys)
  | ChooseFile file =>
      match renderContent s with
      | FileUploaderView =>
          if startsWith (fileType file) "video/"
          then commit sys (handleFileSelect_start file s) (Some (ExtractFrame file))
          else sys
      | _ => sys
      end
  | DrawSelection sel =>
      match renderContent s with
      | FrameSelectorView _ _ => commit sys (s |> setSelection (Some sel)) (inFlight sys)
      | _ => sys
      end
  | ClickRemoveObject =>
      match renderContent s with
      | FrameSelectorView _ sel =>
          if removeDisabled sel then sys
          else match handleRemoveLogo_start s with
               | Some (s', call) => commit sys s' (Some call)
               | None => sys
               end
      | _ => sys
      end
  | ClickGenerateVideo =>
      if offersGenerateVideo (renderContent s) then
        match handleGenerateVideo_start s with
        | Some (s', call) => commit sys s' (Some call)
        | None => sys
        end
      else sys
  | ClickStartOver =>
      if offersReset (renderContent s)
      then commit sys (handleReset s) (inFlight sys) else sys
  | ClickChangeKey aistudio =>
      commit sys (handleChangeApiKey aistudio s) (inFlight sys)
  | Settle r =>
      match inFlight sys with
      | Some (ExtractFrame _) => commit sys (handleFileSelect_settle r s) None
      | Some (RemoveObject _ _) =>
          commit sys (handleRemoveLogo_settle (Client.removeObjectFromFrame r) s) None
      | Some (GenerateVideo _) =>
          commit sys (handleGenerateVideo_settle (Client.generateVideoFromFrame r) s) None
      | None => sys
      end
  | TimerFires =>
      match timers sys with
      | p :: rest => mkSys (s |> setProgress p) (inFlight sys) rest
      | [] => sys
      end
  end.

Definition run (evs : list Event) (sys : Sys) : Sys := fold_left step evs sys.

(** The class names of the errors a call can be rejected with do not
    contain the two markers [generateVideoFromFrame] looks for in
    [String(error)]. *)
Definition plainName (e : Thrown) : bool :=
  match e with
  | JsError name _ =>
      negb (includes name "API quota") && negb (includes name "API key not found")
  | JsOther _ => true
  end.

Definition plainEvent (ev : Event) : bool :=
  match ev with
  | Settle (Err e) => plainName e
  | _ => true
  end.

(** The state holds an error message that is not empty. *)
Definition hasMessage (s : State) : Prop :=
  exists m, error s = Some m /\ m <> "".

(** What holds of the state [s] and the call in flight [call] all along a
    run: an error state has a message; the quota flag is only set with a
    frame or a processed image at hand; while a call is in flight the
    loader is shown, the quota flag is down and the image the call works on
    is at hand. *)
Definition Invariant (s : State) (call : option Call) : Prop :=
  (appState s = AppState.error -> hasMessage s) /\
  (isQuotaError s = true ->
   truthy (frameSrc s) = true \/ truthy (processedImageSrc s) = true) /\
  match call with
  | None => True
  | Some c =>
      (appState s = AppState.processing \/ appState s = AppState.generating_video) /\
      isQuotaError s = false /\
      match c with
      | ExtractFrame _ => True
      | RemoveObject _ _ => truthy (frameSrc s) = true
      | GenerateVideo _ => truthy (processedImageSrc s) = true
      end
  end.

End App.

(** ** Characters a text lacks *)

Module Text.

(** The character [c] does not occur in [s]. *)
Fixpoint lacks (c : ascii) (s : string) : bool :=
  match s with
  | EmptyString => true
  | String a s' => negb (Ascii.eqb a c) && lacks c s'
  end.

(** A marker the code searches a text for that can only lie on one side of
    the colon and the space [Error.prototype.toString] puts between the
    name and the message: it has no colon and does not begin with a
    space. *)
Definition oneSided (marker : string) : bool :=
  lacks ":"%char marker &&
  match marker with
  | String a _ => negb (Ascii.eqb a " "%char)
  | EmptyString => false
  end.

End Text.

(** ** The call of the inpainting operation *)

Module Inpaint.

(** The answer of [generateContent], as far as the code reads it: the
    optional chain [candidates?.[0]?.content?.parts?.[0]] and the
    [inlineData] of that part, known by its [data]. *)
Record Part : Type := { inlineData : option string; text : option string }.
Record Candidate : Type := { parts : option (list Part) }.
Record Response : Type := { candidates : option (list Candidate) }.

(** [response.candidates?.[0]?.content?.parts?.[0]] *)
Definition firstPart (response : Response) : option Part :=
  match candidates response with
  | Some (c :: _) =>
      match parts c with
      | Some (p :: _) => Some p
      | _ => None
      end
  | _ => None
  end.

(** The argument of [generateContent]. *)
Record Request : Type := {
  model : string;
  imageData : string;
  mimeType : string;
  promptText : string;
  responseModalities : list string
}.

Definition newline : string := String "010"%char "".

(** The template of the instruction. *)
Definition prompt (position : string) : string :=
  "Please perform an inpainting task on this image. " ++ newline ++
  "      Remove the object located " ++ position ++
  " and replace it with a realistic background that seamlessly matches the surrounding area. "
  ++ newline ++
  "      Do not add any new objects, simply fill the space left by the removed object.".

(** The request made for an image and the phrase of the position. *)
Definition requestFor (base64Image position : string) : Request :=
  {| model := "gemini-2.5-flash-image";
     imageData := base64Image;
     mimeType := "image/jpeg";
     promptText := prompt position;
     responseModalities := ["IMAGE"] |}.

Definition noImageData : Thrown := newError "No image data returned from API.".

Section Call.

(** The browser, which measures the image, and the service. *)
Variable W : Type.
Variable getImageDimensions : string -> W -> Outcome (Q * Q) * W.
Variable generateContent : Request -> W -> Outcome Response * W.

(** The function [removeObjectFromFrame] hands to [withRetry]. *)
Definition inpaintCall (base64Image : string) (selection : Position.Selection)
    (w : W) : Outcome string * W :=
  match getImageDimensions base64Image w with
  | (Err e, w1) => (Err e, w1)
  | (Ok (width, height), w1) =>
      let position := Position.getPositionalDescription selection width height in
      match generateContent (requestFor base64Image position) w1 with
      | (Err e, w2) => (Err e, w2)
      | (Ok response, w2) =>
          match firstPart response with
          | Some part =>
              match inlineData part with
              | Some data => (Ok data, w2)
              | None => (Err noImageData, w2)
              end
          | None => (Err noImageData, w2)
          end
      end
  end.

(** [removeObjectFromFrame] as a whole: the retried call, then the
    [catch]. *)
Definition removeObjectFromFrameRun (base64Image : string)
    (selection : Position.Selection) (w : W)
  : Outcome string * W * list Retry.Effect :=
  let '(r, w', tr) :=
    Retry.withRetry (inpaintCall base64Image selection) "image processing" w in
  (Client.removeObjectFromFrame r, w', tr).

End Call.

Arguments inpaintCall {W} getImageDimensions generateContent base64Image selection w.
Arguments removeObjectFromFrameRun {W} getImageDimensions generateContent
  base64Image selection w.

End Inpaint.

(** ** The call of the video operation *)

Module Animate.

Local Open Scope Z_scope.

(** The operation handle: its [done] flag (missing counts as not done) and
    [response?.generatedVideos?.[0]?.video?.uri]. *)
Record Operation : Type := { done : bool; uri : option string }.

(** The answer of [fetch]: [ok], the status as the template prints it, the
    text of the body and the URL made for its blob. *)
Record FetchResponse : Type := {
  ok : bool;
  status : string;
  bodyText : string;
  blobUrl : string
}.

(** The argument of [generateVideos]. *)
Record Request : Type := {
  model : string;
  promptText : string;
  imageBytes : string;
  mimeType : string;
  numberOfVideos : Z;
  resolution : string;
  aspectRatio : string
}.

Definition newline : string := String "010"%char "".

Definition prompt : string :=
  "Create a short, 5-second video that subtly animates this scene. " ++ newline ++
  "      The motion should be gentle and natural, as if it's a brief clip from a longer video. "
  ++ newline ++
  "      Ensure the output is high quality.".

(** The request made for an image and an aspect ratio. *)
Definition requestFor (base64Image ratio : string) : Request :=
  {| model := "veo-3.1-fast-generate-preview";
     promptText := prompt;
     imageBytes := base64Image;
     mimeType := "image/jpeg";
     numberOfVideos := 1;
     resolution := "1080p";
     aspectRatio := ratio |}.

Definition noDownloadLink : Thrown :=
  newError "Video generation succeeded but no download link was provided.".

(** What the call does that can be seen from outside, in order. *)
Inductive Action : Type :=
| Generate (request : Request)
| Wait (ms : Z)
| AskStatus
| Download (url : string).

(** What [k] rounds of the loop add to the log. *)
Fixpoint rounds (k : nat) : list Action :=
  match k with
  | O => []
  | S k' => Wait 10000 :: AskStatus :: rounds k'
  end.

Section Call.

Variable W : Type.
Variable getImageDimensions : string -> W -> Outcome (Q * Q) * W.
Variable generateVideos : Request -> W -> Outcome Operation * W.
Variable getVideosOperation : Operation -> W -> Outcome Operation * W.
Variable fetch : string -> W -> Outcome FetchResponse * W.

(** [process.env.API_KEY], as the template prints it. *)
Variable apiKey : string.

(** The [while] loop; it has no bound of its own, [fuel] is the number of
    rounds looked at, and [None] says that it is still polling after
    them. *)
Fixpoint poll (fuel : nat) (operation : Operation) (w : W) (log : list Action)
  : option (Outcome Operation * W * list Action) :=
  if negb (done operation) then
    match fuel with
    | O => None
    | S fuel' =>
        let log1 := (log ++ [Wait 10000; AskStatus])%list in
        match getVideosOperation operation w with
        | (Ok operation', w1) => poll fuel' operation' w1 log1
        | (Err e, w1) => Some (Err e, w1, log1)
        end
    end
  else Some (Ok operation, w, log).

(** The part of the call after the loop. *)
Definition download (operation : Operation) (w : W) (log : list Action)
  : Outcome string * W * list Action :=
  match uri operation with
  | Some downloadLink =>
      if truthy (Some downloadLink) then
        let url := downloadLink ++ "&key=" ++ apiKey in
        let log1 := (log ++ [Download url])%list in
        match fetch url w with
        | (Err e, w1) => (Err e, w1, log1)
        | (Ok videoResponse, w1) =>
            match Client.downloadFailure (ok videoResponse)
                    (bodyText videoResponse) (status videoResponse) with
            | Some e => (Err e, w1, log1)
            | None => (Ok (blobUrl videoResponse), w1, log1)
            end
        end
      else (Err noDownloadLink, w, log)
  | None => (Err noDownloadLink, w, log)
  end.

(** The function [generateVideoFromFrame] hands to [withRetry]. *)
Definition animateCall (fuel : nat) (base64Image : string) (w : W) (log : list Action)
  : option (Outcome string * W * list Action) :=
  match getImageDimensions base64Image w with
  | (Err e, w1) => Some (Err e, w1, log)
  | (Ok (width, height), w1) =>
      let aspectRatio := if Position.ltb height width then "16:9" else "9:16" in
      let request := requestFor base64Image aspectRatio in
      let log1 := (log ++ [Generate request])%list in
      match generateVideos request w1 with
      | (Err e, w2) => Some (Err e, w2, log1)
      | (Ok operation, w2) =>
          match poll fuel operation w2 log1 with
          | None => None
          | Some (Err e, w3, log2) => Some (Err e, w3, log2)
          | Some (Ok operation', w3, log2) => Some (download operation' w3 log2)
          end
      end
  end.

(** The service answers [k] times that the operation [operation] is not
    done, and leaves the operation [last]. *)
Inductive Pending : nat -> Operation -> W -> Operation -> W -> Prop :=
| PendingNow : forall operation w, Pending 0 operation w operation w
| PendingLater : forall k operation w operation1 w1 last w',
    done operation = false ->
    getVideosOperation operation w = (Ok operation1, w1) ->
    Pending k operation1 w1 last w' ->
    Pending (S k) operation w last w'.

End Call.

Arguments poll {W} getVideosOperation fuel operation w log.
Arguments download {W} fetch apiKey operation w log.
Arguments animateCall {W} getImageDimensions generateVideos getVideosOperation
  fetch apiKey fuel base64Image w log.
Arguments Pending {W} getVideosOperation _ _ _ _ _.

End Animate.

(** ** The selection canvas *)

Module FrameSelector.

Local Open Scope Q_scope.

(** A point of the frame: what [getCoordinates] makes of a mouse event. *)
Record Point : Type := { px : Q; py : Q }.

(** The state of the component. *)
Record Local : Type := { isDrawing : bool; startPoint : option Point }.

Definition initial : Local := {| isDrawing := false; startPoint := None |}.

(** Each handler gives the new state and the selection it hands to
    [onSelect], if any. *)
Definition handleMouseDown (p : Point) (l : Local)
  : Local * option Position.Selection :=
  ({| isDrawing := true; startPoint := Some p |},
   Some {| Position.x := px p; Position.y := py p;
           Position.width := 0; Position.height := 0 |}).

(** The [newSelection] of [handleMouseMove], from the point of the press
    and the point of the move. *)
Definition newSelection (start p : Point) : Position.Selection :=
  {| Position.x := Qmin (px start) (px p);
     Position.y := Qmin (py start) (py p);
     Position.width := Qabs (Double.sub (px p) (px start));
     Position.height := Qabs (Double.sub (py p) (py start)) |}.

Definition handleMouseMove (p : Point) (l : Local)
  : Local * option Position.Selection :=
  match startPoint l with
  | Some start =>
      if negb (isDrawing l) then (l, None)
      else (l, Some (newSelection start p))
  | None => (l, None)
  end.

Definition handleMouseUp (l : Local) : Local * option Position.Selection :=
  ({| isDrawing := false; startPoint := None |}, None).

(** The events of the canvas; leaving it is handled as a release. *)
Inductive Mouse : Type :=
| MouseDown (p : Point)
| MouseMove (p : Point)
| MouseUp
| MouseLeave.

Definition handle (m : Mouse) (l : Local) : Local * option Position.Selection :=
  match m with
  | MouseDown p => handleMouseDown p l
  | MouseMove p => handleMouseMove p l
  | MouseUp | MouseLeave => handleMouseUp l
  end.

(** How far the rounding of a distance of about 5 pixels stays from it,
    and more: 2^-50 of a pixel. *)
Definition roundingBand : Q := 1 # 1125899906842624.

(** The button goes up, inside the frame or by leaving it. *)
Definition isRelease (m : Mouse) : bool :=
  match m with MouseUp | MouseLeave => true | _ => false end.

(** Any event but a press. *)
Definition notPress (m : Mouse) : bool :=
  match m with MouseDown _ => false | _ => true end.

(** A gesture: the state after it and the selection [App] holds after it,
    which is the last one handed to [onSelect]. *)
Fixpoint gesture (ms : list Mouse) (l : Local) (selection : option Position.Selection)
  : Local * option Position.Selection :=
  match ms with
  | [] => (l, selection)
  | m :: ms' =>
      let '(l', emitted) := handle m l in
      gesture ms' l' (match emitted with Some sel => Some sel | None => selection end)
  end.

End FrameSelector.

(** ** The frame extractor *)

Module Video.

(** What the video element tells its listeners; [Seeked] carries the data
    URL the canvas gives for the frame drawn at that moment. *)
Inductive Event : Type :=
| Loadeddata
| Seeked (dataUrl : string)
| Error.

(** The promise ([None] while it is pending), the [currentTime] a listener
    has set, how often the object URL was revoked, and whether the
    listeners are attached and the video is loading. *)
Record Extraction : Type := {
  promise : option (Outcome string);
  currentTime : option Q;
  revocations : nat;
  loading : bool
}.

(** [resolve] and [reject]: a promise settles once. *)
Definition settle (r : Outcome string) (x : Extraction) : Extraction :=
  {| promise := match promise x with Some old => Some old | None => Some r end;
     currentTime := currentTime x;
     revocations := revocations x;
     loading := loading x |}.

Definition revoke (x : Extraction) : Extraction :=
  {| promise := promise x; currentTime := currentTime x;
     revocations := S (revocations x); loading := loading x |}.

(** The body of the promise: without a 2d context it rejects and returns
    before any listener is attached. *)
Definition start (hasContext : bool) : Extraction :=
  if negb hasContext then
    {| promise := Some (Err (newError "Could not get canvas context."));
       currentTime := None; revocations := 0; loading := false |}
  else
    {| promise := None; currentTime := None; revocations := 0; loading := true |}.

(** The three listeners. *)
Definition on (time : Q) (ev : Event) (x : Extraction) : Extraction :=
  if negb (loading x) then x
  else
    match ev with
    | Loadeddata =>
        {| promise := promise x; currentTime := Some time;
           revocations := revocations x; loading := loading x |}
    | Seeked dataUrl => settle (Ok dataUrl) (revoke x)
    | Error => settle (Err (newError "Error loading video file.")) (revoke x)
    end.

(** The default of the parameter [time]. *)
Definition defaultTime : Q := 1 # 10.

(** [extractFrame] and the events that follow. *)
Definition extractFrame (hasContext : bool) (time : Q) (events : list Event)
  : Extraction :=
  fold_left (fun x ev => on time ev x) events (start hasContext).

Definition isLoadeddata (ev : Event) : bool :=
  match ev with Loadeddata => true | _ => false end.

End Video.

(** ** Further notions for the application *)

Module AppShape.
Import App.

Local Open Scope Z_scope.

(** The progress and the timers still to fire go together through these
    stages while the state is [processing]. *)
Definition stages : list (Z * list Z) :=
  [ (0, [15; 40; 75; 90]); (15, [40; 75; 90]); (40, [75; 90]);
    (75, [90]); (90, []) ].

(** The artifacts a state needs are at hand. *)
Definition Consistent (s : State) : Prop :=
  (truthy (processedImageSrc s) = true -> truthy (frameSrc s) = true) /\
  (truthy (processedVideoUrl s) = true -> truthy (processedImageSrc s) = true) /\
  match appState s with
  | AppState.video_loaded => truthy (frameSrc s) = true
  | AppState.complete => truthy (processedImageSrc s) = true
  | AppState.video_complete => truthy (processedVideoUrl s) = true
  | _ => True
  end.

(** What holds of the state [s] and the call in flight all along a run:
    the loader is shown exactly while a call is in flight, the call in
    flight has its image, the quota flag is only up in [error] and the
    artifacts are consistent. *)
Definition Core (s : State) (call : option Call) : Prop :=
  match call with
  | Some (ExtractFrame _) => appState s = AppState.processing
  | Some (RemoveObject _ _) =>
      appState s = AppState.processing /\ truthy (frameSrc s) = true
  | Some (GenerateVideo _) =>
      appState s = AppState.generating_video /\
      truthy (processedImageSrc s) = true
  | None =>
      appState s <> AppState.processing /\
      appState s <> AppState.generating_video
  end /\
  (isQuotaError s = true -> appState s = AppState.error) /\
  Consistent s.

(** The progress is at a stage while the state is [processing], and at 0
    with no timer set otherwise. *)
Definition Staged (s : State) (timers : list Z) : Prop :=
  match appState s with
  | AppState.processing => In (progress s, timers) stages
  | _ => progress s = 0 /\ timers = []
  end.

Definition Shape (sys : Sys) : Prop :=
  Core (state sys) (inFlight sys) /\ Staged (state sys) (timers sys).

(** A call that succeeds gives a string that is not empty (a data URL, an
    object URL). *)
Definition solidEvent (ev : Event) : bool :=
  match ev with
  | Settle (Ok v) => negb (v =? "")%string
  | _ => true
  end.

(** The [Loader] draws its bar: [progress !== undefined && progress > 0]. *)
Definition loaderShowsBar (progress : option Z) : bool :=
  match progress with
  | Some p => 0 <? p
  | None => false
  end.

End AppShape.

(** ** Further notions for the retry controller *)

Module RetryShape.
Import Retry.

Local Open Scope Z_scope.

(** What a run does after its first call when it waits [ds] in turn: each
    wait is followed by a call. *)
Definition waitsAndCalls (ds : list Z) : list Effect :=
  flat_map (fun d => [Delay d; Attempt]) ds.




End RetryShape.

(** ** Sample inputs *)

Module Examples.
Import Retry.

(** The text of a quota error. *)
Definition quotaText : string :=
  "got status: 429 Too Many Requests. RESOURCE_EXHAUSTED".

Definition quotaError : Thrown := JsError "ApiError" quotaText.

(** A remote side that counts the calls: the first [failures] calls are
    rejected with a quota error, the next ones return 7. *)
Definition flaky (failures : nat) (calls : nat) : Outcome Z * nat :=
  if (calls <? failures)%nat then (Err quotaError, S calls)
  else (Ok 7%Z, S calls).





(** An error that is no quota error. *)
Definition forbidden : Thrown := JsError "ApiError" "got status: 403 Forbidden".

Definition alwaysForbidden (w : unit) : Outcome Z * unit := (Err forbidden, w).

(** A rectangle of 200 by 150 pixels in the middle of a frame of 1280 by
    720. *)
Definition centered : Position.Selection :=
  {| Position.x := 540; Position.y := 285;
     Position.width := 200; Position.height := 150 |}.

(** A rectangle of 200 by 150 pixels in the middle of a frame of 1200 by
    900, whose thirds are whole numbers. *)
Definition centeredInThirds : Position.Selection :=
  {| Position.x := 500; Position.y := 375;
     Position.width := 200; Position.height := 150 |}.

(** A rectangle of 10 by 10 pixels on a frame of 100 by 100. Its center is
    at the height of 50 and, from the left, at the double next above two
    thirds of 100, which is 4691249611844267 / 2^46. *)
Definition besideTheLine : Position.Selection :=
  {| Position.x := 4339405890955947 # 70368744177664; Position.y := 45;
     Position.width := 10; Position.height := 10 |}.

Definition clip : App.File :=
  {| App.fileName := "clip.mp4"; App.fileType := "video/mp4" |}.

(** The frame, as a data URL, and the image the model answers with. *)
Definition frame : string := "data:image/jpeg;base64,AAAA".
Definition inpainted : string := "BBBB".

(** A video is uploaded, its frame is shown, the rectangle is drawn and the
    removal is confirmed. *)
Definition upToRemoval : list App.Event :=
  [ App.KeyChecked (Some true); App.ChooseFile clip; App.Settle (Ok frame);
    App.DrawSelection centered; App.ClickRemoveObject ].

(** The application while the inpainting call is in flight. *)
Definition removing : App.Sys := App.run upToRemoval App.initialSys.

(** The same, and the call is rejected for good after its retries. *)
Definition quotaFailure : list App.Event :=
  (upToRemoval ++ [ App.Settle (Err (quotaExceeded "image processing")) ])%list.

(** What is thrown when the download of the video answers that the entity
    was not found. *)
Definition keyNotFound : Thrown :=
  newError "API key not found. Please select your API key again.".

(** The application while the video generation is in flight. *)
Definition generating : App.Sys :=
  App.run (upToRemoval ++ [ App.Settle (Ok inpainted); App.ClickGenerateVideo ])%list
          App.initialSys.

(** The rectangle is too narrow: 4 pixels wide. *)
Definition narrow : Position.Selection :=
  {| Position.x := 10; Position.y := 10;
     Position.width := 4; Position.height := 150 |}.

Definition upToNarrow : list App.Event :=
  [ App.KeyChecked (Some true); App.ChooseFile clip; App.Settle (Ok frame);
    App.DrawSelection narrow ].

End Examples.

(** ** Further sample inputs *)

Module Scenarios.

(** A drag from the point (1, 1) by the point (30, 2) to the point
    (7, 20). *)
Definition pressAt : FrameSelector.Point :=
  {| FrameSelector.px := 1; FrameSelector.py := 1 |}.
Definition passBy : FrameSelector.Point :=
  {| FrameSelector.px := 30; FrameSelector.py := 2 |}.
Definition endAt : FrameSelector.Point :=
  {| FrameSelector.px := 7; FrameSelector.py := 20 |}.

(** A service that is out of quota at every call. *)
Definition busy (calls : nat) : Outcome string * nat :=
  (Err Examples.quotaError, S calls).


(** The service says that the model is not found. *)
Definition notFound : Thrown :=
  JsError "ApiError" "got status: 404 NOT_FOUND".

(** A browser that measures every image as 1280 by 720, and a service that
    answers every request with a text part followed by an image part. *)
Definition measures (base64Image : string) (w : unit) : Outcome (Q * Q) * unit :=
  (Ok (1280%Q, 720%Q), w).

Definition textThenImage : Inpaint.Response :=
  {| Inpaint.candidates :=
       Some [ {| Inpaint.parts :=
                   Some [ {| Inpaint.inlineData := None;
                             Inpaint.text := Some "Here is the image." |};
                          {| Inpaint.inlineData := Some "BBBB";
                             Inpaint.text := None |} ] |} ] |}.

Definition answersTextFirst (request : Inpaint.Request) (w : unit)
  : Outcome Inpaint.Response * unit :=
  (Ok textThenImage, w).

(** A video service on which the operation is done at the third look. The
    state counts the looks. *)
Definition slowVideo (operation : Animate.Operation) (looks : nat)
  : Outcome Animate.Operation * nat :=
  (Ok {| Animate.done := (2 <=? looks)%nat;
         Animate.uri := Some "https://video.example/v1?alt=media" |},
   S looks).

Definition started : Animate.Operation :=
  {| Animate.done := false; Animate.uri := None |}.


Definition finished : Animate.Operation :=
  {| Animate.done := true;
     Animate.uri := Some "https://video.example/v1?alt=media" |}.

(** The same service as a whole, on a state that counts the looks: the
    image is 1280 by 720, the operation starts not done, and the download
    succeeds. *)
Definition measuresWide (base64Image : string) (looks : nat)
  : Outcome (Q * Q) * nat :=
  (Ok (1280%Q, 720%Q), looks).

Definition startsVideo (request : Animate.Request) (looks : nat)
  : Outcome Animate.Operation * nat :=
  (Ok started, looks).

Definition downloads (url : string) (looks : nat)
  : Outcome Animate.FetchResponse * nat :=
  (Ok {| Animate.ok := true; Animate.status := "200";
         Animate.bodyText := ""; Animate.blobUrl := "blob:video-1" |}, looks).

(** The whole journey: upload, selection, removal and video. *)
Definition videoDone : list App.Event :=
  (Examples.upToRemoval ++
   [ App.Settle (Ok Examples.inpainted); App.ClickGenerateVideo;
     App.Settle (Ok "blob:video-1") ])%list.

(** The removal is in flight and two timers of the progress have fired. *)
Definition twoTimers : list App.Event :=
  (Examples.upToRemoval ++ [ App.TimerFires; App.TimerFires ])%list.

End Scenarios.

(** * Properties *)

(** ** Strings *)


Lemma includes_prefix (s sub : string) :
  prefix sub s = true -> includes s sub = true.
Proof. intros H. destruct s; cbn [includes]; rewrite H; reflexivity. Qed.

Lemma includes_cons (ch : ascii) (s sub : string) :
  includes s sub = true -> includes (String ch s) sub = true.
Proof.
  intros H. cbn [includes]. rewrite H.
  destruct (prefix sub (String ch s)); reflexivity.
Qed.


Lemma includes_nil_false (sub : string) :
  sub <> "" -> includes "" sub = false.
Proof. destruct sub; [congruence | reflexivity]. Qed.

(** ** The rounding of the doubles on integers *)

Section DoubleFacts.
Import Double.
Local Open Scope Z_scope.

(** Up to 2^53 an integer is a double. *)
Lemma roundDouble_exact (z : Z) : z <= 2 ^ 53 -> roundDouble z = z.
Proof.
  intros H. unfold roundDouble. destruct (z <? 2 ^ 53) eqn:E; [reflexivity|].
  apply Z.ltb_ge in E. assert (z = 2 ^ 53) as -> by lia. reflexivity.
Qed.

(** From 2^53 on the rounding stays there. *)
Lemma roundDouble_large (z : Z) : 2 ^ 53 <= z -> 2 ^ 53 <= roundDouble z.
Proof.
  intros H. unfold roundDouble. destruct (z <? 2 ^ 53) eqn:E; [exact H|].
  assert (L : 53 <= Z.log2 z).
  { change 53 with (Z.log2 (2 ^ 53)). apply Z.log2_le_mono, H. }
  set (k := Z.log2 z - 52).
  assert (K : 1 <= k) by (unfold k; lia).
  assert (P : 0 < 2 ^ k) by (apply Z.pow_pos_nonneg; lia).
  assert (Q : 2 ^ 52 <= z / 2 ^ k).
  { apply Z.div_le_lower_bound; [exact P|].
    rewrite <- Z.pow_add_r by lia.
    replace (k + 52) with (Z.log2 z) by (unfold k; lia).
    apply Z.log2_spec. lia. }
  assert (M : 2 ^ 52 * 2 ^ 1 <= z / 2 ^ k * 2 ^ k).
  { apply Z.mul_le_mono_nonneg; try lia.
    apply Z.pow_le_mono_r; lia. }
  cbv zeta.
  destruct (z mod 2 ^ k <? 2 ^ (k - 1)); [lia|].
  destruct (2 ^ (k - 1) <? z mod 2 ^ k); [nia|].
  destruct (Z.even (z / 2 ^ k)); [lia | nia].
Qed.

(** The rounding does not go below a double that the number is not
    below. *)
Lemma roundDouble_ge (b z : Z) : b <= 2 ^ 53 -> b <= z -> b <= roundDouble z.
Proof.
  intros B H. destruct (Z.le_gt_cases z (2 ^ 53)) as [S|L].
  - rewrite roundDouble_exact by exact S. exact H.
  - pose proof (roundDouble_large z ltac:(lia)). lia.
Qed.

(** A third of 100 is rounded up, to 4691249611844267 / 2^47; a tenth is
    rounded up too; 5 and a half are doubles; 2^53 + 1 is a tie and goes to
    the even mantissa, 2^53 + 3 goes up. *)
Example fl_third_of_100 :
  (fl (100 / 3) == 4691249611844267 # 140737488355328)%Q /\
  (100 / 3 < fl (100 / 3))%Q.
Proof. split; vm_compute; reflexivity. Qed.

Example fl_tenth : (fl (1 # 10) == 3602879701896397 # 36028797018963968)%Q.
Proof. vm_compute. reflexivity. Qed.

Example fl_doubles : representable 5 /\ representable (1 # 2) /\ representable (-3 # 4).
Proof. unfold representable. repeat split. Qed.

Example roundDouble_ties :
  roundDouble 9007199254740993 = 9007199254740992 /\
  roundDouble 9007199254740995 = 9007199254740996 /\
  (fl (inject_Z 9007199254740993) == inject_Z 9007199254740992)%Q.
Proof. repeat split. Qed.

End DoubleFacts.

(** ** The rounding of the doubles on rationals *)

Section FlFacts.
Import Double.
Local Open Scope Q_scope.

Lemma pow2_pos (e : Z) : 0 < pow2 e.
Proof. apply Qpower_0_lt. reflexivity. Qed.

Lemma pow2_plus (a b : Z) : pow2 (a + b) == pow2 a * pow2 b.
Proof. apply Qpower_plus. discriminate. Qed.

Lemma pow2_Z (n : Z) : (0 <= n)%Z -> pow2 n == inject_Z (2 ^ n).
Proof. intros H. unfold pow2. rewrite Zpower_Qpower by exact H. reflexivity. Qed.

Lemma exponentOf_spec (a : Q) :
  0 < a -> pow2 (exponentOf a) <= a /\ a < pow2 (exponentOf a + 1).
Proof.
  intros P. destruct a as [n d].
  assert (Pn : (0 < n)%Z).
  { unfold Qlt in P. cbn in P. lia. }
  unfold exponentOf. cbn [Qnum Qden].
  set (A := Z.log2 n). set (B := Z.log2 (Z.pos d)).
  assert (HA : (0 <= A)%Z) by apply Z.log2_nonneg.
  assert (HB : (0 <= B)%Z) by apply Z.log2_nonneg.
  destruct (Z.log2_spec n Pn) as [A1 A2]. fold A in A1, A2.
  destruct (Z.log2_spec (Z.pos d) ltac:(lia)) as [B1 B2]. fold B in B1, B2.
  assert (EA : pow2 A == inject_Z (2 ^ A)) by (apply pow2_Z, HA).
  assert (EB : pow2 B == inject_Z (2 ^ B)) by (apply pow2_Z, HB).
  assert (E0 : pow2 (A - B) * pow2 B == pow2 A).
  { rewrite <- pow2_plus. replace (A - B + B)%Z with A by lia. reflexivity. }
  assert (E1 : pow2 (A - B + 1) == 2 * pow2 (A - B)).
  { rewrite pow2_plus. change (pow2 1) with 2. ring. }
  assert (E2 : pow2 (A - B - 1 + 1) == pow2 (A - B)).
  { replace (A - B - 1 + 1)%Z with (A - B)%Z by lia. reflexivity. }
  assert (E3 : 2 * pow2 (A - B - 1) == pow2 (A - B)).
  { rewrite <- E2 at 1. rewrite pow2_plus. change (pow2 1) with 2. ring. }
  pose proof (pow2_pos (A - B)) as P0.
  pose proof (pow2_pos (A - B - 1)) as P1.
  pose proof (pow2_pos B) as PB.
  (* the value as a quotient *)
  assert (V : n # d == inject_Z n / inject_Z (Z.pos d)).
  { rewrite Qmake_Qdiv. reflexivity. }
  assert (Dpos : 0 < inject_Z (Z.pos d)).
  { unfold Qlt. cbn. lia. }
  assert (N1 : inject_Z (2 ^ A) <= inject_Z n) by (rewrite <- Zle_Qle; exact A1).
  assert (N2 : inject_Z n < inject_Z (2 ^ Z.succ A)) by (rewrite <- Zlt_Qlt; exact A2).
  assert (D1 : inject_Z (2 ^ B) <= inject_Z (Z.pos d)) by (rewrite <- Zle_Qle; exact B1).
  assert (D2 : inject_Z (Z.pos d) < inject_Z (2 ^ Z.succ B)) by (rewrite <- Zlt_Qlt; exact B2).
  rewrite Z.pow_succ_r, inject_Z_mult in N2, D2 by assumption.
  rewrite <- EA in N1, N2. rewrite <- EB in D1, D2.
  change (inject_Z 2) with 2 in N2, D2.
  set (qn := inject_Z n) in *. set (qd := inject_Z (Z.pos d)) in *.
  set (pa := pow2 A) in *. set (pb := pow2 B) in *. set (p0 := pow2 (A - B)) in *.
  destruct (Qle_bool p0 (n # d)) eqn:C.
  - apply Qle_bool_iff in C. split; [exact C|].
    rewrite E1, V. apply Qlt_shift_div_r; [exact Dpos|].
    nra.
  - assert (C' : n # d < p0).
    { apply Qnot_le_lt. intros L. apply Qle_bool_iff in L. congruence. }
    split.
    + rewrite V. apply Qle_shift_div_l; [exact Dpos|].
      set (p1 := pow2 (A - B - 1)) in *. nra.
    + rewrite E2. exact C'.
Qed.


Lemma nearestEven_near (s : Q) :
  - (1 # 2) <= inject_Z (nearestEven s) - s <= 1 # 2.
Proof.
  unfold nearestEven.
  pose proof (Qfloor_le s) as L. pose proof (Qlt_floor s) as U.
  rewrite inject_Z_plus in U. change (inject_Z 1) with 1 in U.
  set (f := Qfloor s) in *.
  assert (F1 : inject_Z (f + 1) == inject_Z f + 1).
  { rewrite inject_Z_plus. reflexivity. }
  destruct (Qcompare (s - inject_Z f) (1 # 2)) eqn:C.
  - apply Qeq_alt in C.
    destruct (Z.even f); [|rewrite F1]; lra.
  - apply Qlt_alt in C. lra.
  - apply Qgt_alt in C. rewrite F1. lra.
Qed.

(** The mantissa times the unit is within half a unit of the number, and
    the unit is at most the number over 2^52. *)
Lemma round_positive (a : Q) :
  0 < a ->
  let ulp := pow2 (exponentOf a - 52) in
  Qabs (inject_Z (nearestEven (a / ulp)) * ulp - a) <= a * (1 # 9007199254740992).
Proof.
  intros P ulp.
  destruct (exponentOf_spec a P) as [L _].
  pose proof (pow2_pos (exponentOf a - 52)) as U. fold ulp in U.
  assert (E : pow2 (exponentOf a) == ulp * 4503599627370496).
  { unfold ulp. change 4503599627370496 with (pow2 52).
    rewrite <- pow2_plus. replace (exponentOf a - 52 + 52)%Z with (exponentOf a) by lia.
    reflexivity. }
  rewrite E in L.
  pose proof (nearestEven_near (a / ulp)) as N.
  set (m := inject_Z (nearestEven (a / ulp))) in *.
  assert (S : a / ulp * ulp == a).
  { field. intros Z. rewrite Z in U. discriminate U. }
  set (s := a / ulp) in *.
  apply Qabs_Qle_condition. rewrite <- S at 2 3. split; nra.
Qed.

Lemma fl_error (q : Q) : Qabs (fl q - q) <= Qabs q * (1 # 9007199254740992).
Proof.
  unfold fl. destruct (Qcompare q 0) eqn:C.
  - apply Qeq_alt in C. rewrite C. cbn. discriminate.
  - apply Qlt_alt in C.
    assert (A : Qabs q == - q) by (apply Qabs_neg; lra).
    assert (P : 0 < Qabs q) by lra.
    pose proof (round_positive (Qabs q) P) as R. cbv zeta in R.
    rewrite Qred_correct.
    set (v := inject_Z (nearestEven (Qabs q / pow2 (exponentOf (Qabs q) - 52)))
              * pow2 (exponentOf (Qabs q) - 52)) in *.
    apply Qabs_Qle_condition in R. apply Qabs_Qle_condition. lra.
  - apply Qgt_alt in C.
    assert (A : Qabs q == q) by (apply Qabs_pos; lra).
    assert (P : 0 < Qabs q) by lra.
    pose proof (round_positive (Qabs q) P) as R. cbv zeta in R.
    rewrite Qred_correct.
    set (v := inject_Z (nearestEven (Qabs q / pow2 (exponentOf (Qabs q) - 52)))
              * pow2 (exponentOf (Qabs q) - 52)) in *.
    apply Qabs_Qle_condition in R. apply Qabs_Qle_condition. lra.
Qed.

(** The rounding of a number that is not negative stays within 2^-53 of
    it, in proportion; likewise for one that is not positive. *)
Lemma fl_nonneg (q : Q) :
  0 <= q ->
  q * (1 - (1 # 9007199254740992)) <= fl q <= q * (1 + (1 # 9007199254740992)).
Proof.
  intros P. pose proof (fl_error q) as E.
  rewrite (Qabs_pos q P) in E. apply Qabs_Qle_condition in E. lra.
Qed.

Lemma fl_nonpos (q : Q) :
  q <= 0 ->
  q * (1 + (1 # 9007199254740992)) <= fl q <= q * (1 - (1 # 9007199254740992)).
Proof.
  intros P. pose proof (fl_error q) as E.
  rewrite (Qabs_neg q P) in E. apply Qabs_Qle_condition in E. lra.
Qed.

(** The same for the size of the number. *)
Lemma fl_abs (q : Q) :
  Qabs q * (1 - (1 # 9007199254740992)) <= Qabs (fl q)
  <= Qabs q * (1 + (1 # 9007199254740992)).
Proof.
  destruct (Qlt_le_dec q 0) as [N|P].
  - pose proof (fl_nonpos q ltac:(lra)) as B.
    rewrite (Qabs_neg q) by lra. rewrite (Qabs_neg (fl q)) by lra. lra.
  - pose proof (fl_nonneg q P) as B.
    rewrite (Qabs_pos q) by lra. rewrite (Qabs_pos (fl q)) by lra. lra.
Qed.

End FlFacts.

(** ** The pattern of the retry delay *)

Module RetryFacts.
Import Retry.

Local Open Scope Z_scope.

Lemma stripPrefix_app (p r : string) : stripPrefix p (p ++ r) = Some r.
Proof.
  induction p as [|c p IH]; simpl.
  - reflexivity.
  - rewrite Ascii.eqb_refl. exact IH.
Qed.

Lemma stripPrefix_some (p s r : string) :
  stripPrefix p s = Some r -> s = p ++ r.
Proof.
  revert s. induction p as [|c p IH]; intros s H; simpl in *.
  - congruence.
  - destruct s as [|b s]; [discriminate|].
    destruct (Ascii.eqb c b) eqn:E; [|discriminate].
    apply Ascii.eqb_eq in E. subst b. f_equal. apply IH, H.
Qed.

Lemma takeDigits_app (ds rest : string) :
  allDigits ds = true -> takeDigits rest = "" -> takeDigits (ds ++ rest) = ds.
Proof.
  intros Hd Hr. induction ds as [|c ds IH]; simpl in *.
  - exact Hr.
  - apply andb_true_iff in Hd. destruct Hd as [Hc Hd].
    rewrite Hc, IH by exact Hd. reflexivity.
Qed.

Lemma takeDigits_split (r : string) :
  exists rest, r = takeDigits r ++ rest /\
               allDigits (takeDigits r) = true /\ takeDigits rest = "".
Proof.
  induction r as [|c r [rest [E [A N]]]]; simpl.
  - exists "". repeat split.
  - destruct (isDigit c) eqn:D.
    + exists rest. simpl. rewrite D, A. repeat split; [congruence | exact N].
    + exists (String c r). simpl. rewrite D. repeat split.
Qed.

Lemma matchHere_field (s ds rest : string) :
  delayField s "" ds rest -> matchHere s = Some ds.
Proof.
  intros [E [Hne [Hd Hr]]]. cbn [append] in E. subst s. unfold matchHere.
  rewrite stripPrefix_app, takeDigits_app by assumption.
  destruct ds; congruence.
Qed.

Lemma matchHere_some (s ds : string) :
  matchHere s = Some ds -> exists rest, delayField s "" ds rest.
Proof.
  unfold matchHere. intros H.
  destruct (stripPrefix retryDelayKey s) as [r|] eqn:E; [|discriminate].
  apply stripPrefix_some in E.
  destruct (takeDigits_split r) as [rest [Er [A N]]].
  destruct (takeDigits r) as [|c t] eqn:Et; [discriminate|].
  injection H as <-. exists rest. unfold delayField. cbn [append].
  split; [rewrite E, Er; reflexivity|].
  repeat split; try assumption. discriminate.
Qed.

Lemma delayField_cons (c : ascii) (s pre ds rest : string) :
  delayField s pre ds rest -> delayField (String c s) (String c pre) ds rest.
Proof.
  intros [E H]. split; [rewrite E; reflexivity | exact H].
Qed.

Lemma matchRetryDelay_first (s pre ds rest : string) :
  firstDelayField s pre ds rest -> matchRetryDelay s = Some ds.
Proof.
  revert s. induction pre as [|c pre IH]; intros s [F L].
  - destruct s; cbn [matchRetryDelay]; rewrite (matchHere_field _ _ _ F);
      reflexivity.
  - pose proof F as [E _]. cbn [append] in E. subst s.
    cbn [matchRetryDelay].
    destruct (matchHere (String c (pre ++ retryDelayKey ++ ds ++ rest)))
      as [ds0|] eqn:M.
    + apply matchHere_some in M. destruct M as [rest0 F0].
      apply L in F0. simpl in F0. lia.
    + apply IH. split.
      * destruct F as [_ H]. split; [reflexivity | exact H].
      * intros pre' ds' rest' F'.
        apply (delayField_cons c) in F'. apply L in F'. simpl in F'. lia.
Qed.

Lemma matchRetryDelay_none (s : string) :
  noDelayField s -> matchRetryDelay s = None.
Proof.
  induction s as [|c s IH]; intros N.
  - cbn [matchRetryDelay]. destruct (matchHere "") as [ds|] eqn:M; [|reflexivity].
    apply matchHere_some in M. destruct M as [rest F]. elim (N _ _ _ F).
  - cbn [matchRetryDelay].
    destruct (matchHere (String c s)) as [ds|] eqn:M.
    + apply matchHere_some in M. destruct M as [rest F]. elim (N _ _ _ F).
    + apply IH. intros pre ds rest F.
      apply (N (String c pre) ds rest), delayField_cons, F.
Qed.


Lemma retryDelay_backoff (i : Z) (s : string) :
  noDelayField s -> retryDelay i s = 5000 * 2 ^ i.
Proof.
  intros N. unfold retryDelay. rewrite (matchRetryDelay_none _ N). reflexivity.
Qed.

(** [parseInt] reads its digits in base ten. *)
Lemma parseDigits_snoc (acc : Z) (ds : string) (c : ascii) :
  parseDigits acc (ds ++ String c "") = parseDigits acc ds * 10 + digitValue c.
Proof.
  revert acc. induction ds as [|d ds IH]; intros acc; simpl.
  - reflexivity.
  - apply IH.
Qed.






Example parseInt_30 : parseInt "30" = 30.
Proof. reflexivity. Qed.

(** The text of an error of the service that asks to wait 30 seconds, at
    the second attempt. *)
Example retryDelay_of_payload :
  retryDelay 1 ("ApiError: {code:429, " ++ retryDelayKey ++ "30s" ++ String dquote "}")
  = 30500.
Proof. vm_compute. reflexivity. Qed.

Example retryDelay_without_field :
  retryDelay 1 "ApiError: 429 Too Many Requests" = 10000.
Proof. vm_compute. reflexivity. Qed.

End RetryFacts.

(** ** The retry controller *)

Section RetryLoop.
Import Retry.
Local Open Scope Z_scope.

Variables (W T : Type).
Variable apiCall : W -> Outcome T * W.
Variable serviceName : string.

Lemma withRetryFrom_ok remaining i w w1 tr v :
  apiCall w = (Ok v, w1) ->
  withRetryFrom apiCall serviceName (S remaining) i w tr = (Ok v, w1, (tr ++ [Attempt])%list).
Proof. intros H. cbn [withRetryFrom]. rewrite H. reflexivity. Qed.

Lemma withRetryFrom_fatal remaining i w w1 tr e :
  apiCall w = (Err e, w1) -> isQuotaError (toString e) = false ->
  withRetryFrom apiCall serviceName (S remaining) i w tr = (Err e, w1, (tr ++ [Attempt])%list).
Proof.
  intros H Q. cbn [withRetryFrom]. rewrite H. cbv zeta.
  rewrite Q. reflexivity.
Qed.

Lemma withRetryFrom_retry remaining i w w1 tr e :
  apiCall w = (Err e, w1) -> isQuotaError (toString e) = true ->
  i < MAX_RETRIES - 1 ->
  withRetryFrom apiCall serviceName (S remaining) i w tr =
  withRetryFrom apiCall serviceName remaining (i + 1) w1 (tr ++ [Attempt; Delay (retryDelay i (toString e))])%list.
Proof.
  intros H Q Hi. cbn [withRetryFrom]. rewrite H. cbv zeta.
  rewrite Q. cbn [negb].
  apply Z.ltb_lt in Hi. rewrite Hi, <- app_assoc. reflexivity.
Qed.

Lemma withRetryFrom_last remaining i w w1 tr e :
  apiCall w = (Err e, w1) -> isQuotaError (toString e) = true ->
  MAX_RETRIES - 1 <= i ->
  withRetryFrom apiCall serviceName (S remaining) i w tr = withRetryFrom apiCall serviceName remaining (i + 1) w1 (tr ++ [Attempt])%list.
Proof.
  intros H Q Hi. cbn [withRetryFrom]. rewrite H. cbv zeta.
  rewrite Q. cbn [negb].
  apply Z.ltb_ge in Hi. rewrite Hi. reflexivity.
Qed.


Lemma delays_app tr1 tr2 : delays (tr1 ++ tr2) = (delays tr1 ++ delays tr2)%list.
Proof. unfold delays. apply flat_map_app. Qed.




End RetryLoop.

Section RetryClaims.
Import Retry.
Local Open Scope Z_scope.


(** C2: an attempt that fails with an error whose text contains neither
    429 nor RESOURCE_EXHAUSTED ends [withRetry] at once: that very error is
    thrown, and the call is the last thing done, so there is no further
    attempt and no wait after it. For the first attempt the call is all
    that was done. *)
Theorem non_quota_error_propagates :
  forall (W T : Type) (apiCall : W -> Outcome T * W) (serviceName : string),
    (forall remaining i w w1 tr e,
        apiCall w = (Err e, w1) ->
        includes (toString e) "429" = false ->
        includes (toString e) "RESOURCE_EXHAUSTED" = false ->
        withRetryFrom apiCall serviceName (S remaining) i w tr
        = (Err e, w1, (tr ++ [Attempt])%list)) /\
    (forall w w1 e,
        apiCall w = (Err e, w1) ->
        includes (toString e) "429" = false ->
        includes (toString e) "RESOURCE_EXHAUSTED" = false ->
        withRetry apiCall serviceName w = (Err e, w1, [Attempt])).
Proof.
  intros W T apiCall serviceName.
  assert (G : forall remaining i w w1 tr e,
             apiCall w = (Err e, w1) ->
             includes (toString e) "429" = false ->
             includes (toString e) "RESOURCE_EXHAUSTED" = false ->
             withRetryFrom apiCall serviceName (S remaining) i w tr
             = (Err e, w1, (tr ++ [Attempt])%list)).
  { intros remaining i w w1 tr e C H1 H2.
    apply withRetryFrom_fatal; [exact C|].
    unfold isQuotaError. rewrite H1, H2. reflexivity. }
  split; [exact G|].
  intros w w1 e C H1 H2. unfold withRetry.
  change (Z.to_nat MAX_RETRIES) with 3%nat.
  rewrite (G _ _ _ _ _ _ C H1 H2). reflexivity.
Qed.



End RetryClaims.

Section RetryWitnesses.
Import Retry.
Local Open Scope Z_scope.


Lemma non_quota_error_propagates_witness :
  withRetry Examples.alwaysForbidden "video generation" tt
  = (Err Examples.forbidden, tt, [Attempt]).
Proof.
  apply (proj2 (non_quota_error_propagates unit Z Examples.alwaysForbidden
                  "video generation") tt tt Examples.forbidden);
    reflexivity.
Defined.


End RetryWitnesses.

(** ** The positional descriptor *)

Section PositionClaims.
Import Position.
Local Open Scope Q_scope.

(** Linear arithmetic with the divisions by three written as products. *)
Ltac thirds := unfold Qdiv in *; change (/ 3) with (1 # 3) in *; lra.

Lemma ltb_true (a b : Q) : ltb a b = true -> a < b.
Proof.
  unfold ltb. intros H. apply negb_true_iff in H.
  apply Qnot_le_lt. intros L. apply Qle_bool_iff in L. congruence.
Qed.

Lemma ltb_false (a b : Q) : ltb a b = false -> b <= a.
Proof.
  unfold ltb. intros H. apply negb_false_iff in H.
  apply Qle_bool_iff, H.
Qed.

(** The third the code puts a computed coordinate in, by its two
    comparisons. *)
Lemma third_cases (c third : Q) :
  (ltb c third = true /\ computedThird First c third) \/
  (ltb c third = false /\ ltb (Double.mul third 2) c = true /\
   computedThird Last c third) \/
  (ltb c third = false /\ ltb (Double.mul third 2) c = false /\
   computedThird Middle c third).
Proof.
  destruct (ltb c third) eqn:E1.
  - left. split; [reflexivity|]. apply ltb_true in E1. exact E1.
  - right. apply ltb_false in E1.
    destruct (ltb (Double.mul third 2) c) eqn:E2.
    + left. apply ltb_true in E2. cbn [computedThird]. repeat split; assumption.
    + right. apply ltb_false in E2. cbn [computedThird]. repeat split; assumption.
Qed.

(** The code puts a coordinate in one third only. *)
Lemma computedThird_unique (c third : Q) (t t' : Third) :
  computedThird t c third -> computedThird t' c third -> t = t'.
Proof.
  intros H H'. destruct t, t'; cbn [computedThird] in *; try reflexivity;
    exfalso; lra.
Qed.

(** With a positive size a coordinate is in one third only. *)
Lemma third_unique (c size : Q) (t t' : Third) :
  0 < size -> inThird t c size -> inThird t' c size -> t = t'.
Proof.
  intros P H H'. destruct t, t'; cbn [inThird] in *; try reflexivity;
    exfalso; thirds.
Qed.

(** Where nothing is rounded, the third of the code is the third of the
    grid. *)
Lemma computedThird_exact (t : Third) (c c' third size : Q) :
  0 < size -> c == c' -> third == size / 3 ->
  Double.mul third 2 == 2 * size / 3 ->
  computedThird t c third -> inThird t c' size.
Proof.
  intros P Ec Et Ed H. destruct t; cbn [computedThird inThird] in *.
  - rewrite <- Ec, <- Et. exact H.
  - destruct H as [H1 H2]. rewrite <- Ec, <- Et, <- Ed. split; assumption.
  - destruct H as [_ H]. rewrite <- Ec, <- Ed. exact H.
Qed.

(** Off the lines by more than the slack, the third of the code is the
    third of the grid. *)
Lemma computedThird_off_lines (t : Third) (start size side : Q) :
  0 < side -> offTheLines start size side ->
  computedThird t (Double.add start (Double.div size 2)) (Double.div side 3) ->
  inThird t (start + size / 2) side.
Proof.
  intros P [O1 O2].
  unfold slack, computedThird, inThird, Double.add, Double.div, Double.mul, Qdiv in *.
  change (/ 2) with (1 # 2) in *. change (/ 3) with (1 # 3) in *.
  (* the sizes of the start and of the size *)
  pose proof (Qle_Qabs start) as X1.
  pose proof (Qle_Qabs (- start)) as X2. rewrite Qabs_opp in X2.
  pose proof (Qle_Qabs size) as S1.
  pose proof (Qle_Qabs (- size)) as S2. rewrite Qabs_opp in S2.
  rewrite (Qabs_pos side) in O1, O2 by lra.
  set (X := Qabs start) in *. set (S := Qabs size) in *.
  (* the half of the size *)
  assert (Hh : size * (1 # 2) - S * (1 # 18014398509481984)
               <= Double.fl (size * (1 # 2))
               <= size * (1 # 2) + S * (1 # 18014398509481984)).
  { destruct (Qlt_le_dec size 0) as [N|N].
    - pose proof (fl_nonpos (size * (1 # 2)) ltac:(lra)). lra.
    - pose proof (fl_nonneg (size * (1 # 2)) ltac:(lra)). lra. }
  set (h := Double.fl (size * (1 # 2))) in *.
  (* the center *)
  assert (Hc : start + size * (1 # 2) - (X + S) * (1 # 4503599627370496)
               <= Double.fl (start + h)
               <= start + size * (1 # 2) + (X + S) * (1 # 4503599627370496)).
  { destruct (Qlt_le_dec (start + h) 0) as [N|N].
    - pose proof (fl_nonpos (start + h) ltac:(lra)). lra.
    - pose proof (fl_nonneg (start + h) ltac:(lra)). lra. }
  set (c := Double.fl (start + h)) in *.
  (* the third and twice the third *)
  pose proof (fl_nonneg (side * (1 # 3)) ltac:(lra)) as Ht.
  set (third := Double.fl (side * (1 # 3))) in *.
  assert (Tpos : 0 <= third * 2) by lra.
  pose proof (fl_nonneg (third * 2) Tpos) as Hd.
  set (double := Double.fl (third * 2)) in *.
  set (c' := start + size * (1 # 2)) in *.
  intros H.
  destruct (Qlt_le_dec c' (side * (1 # 3))) as [L1|L1];
    [rewrite (Qabs_neg (c' - side * (1 # 3))) in O1 by lra
    |rewrite (Qabs_pos (c' - side * (1 # 3))) in O1 by lra];
    (destruct (Qlt_le_dec c' (2 * side * (1 # 3))) as [L2|L2];
     [rewrite (Qabs_neg (c' - 2 * side * (1 # 3))) in O2 by lra
     |rewrite (Qabs_pos (c' - 2 * side * (1 # 3))) in O2 by lra]);
    (destruct t;
     [ | destruct H as [H1 H2]; split | destruct H as [H1 H2] ]; lra).
Qed.

(** The rectangle [besideTheLine] on a frame of 100 by 100: its center is
    in the middle third from the top and in the last third from the left,
    the cell of the phrase for the center right; the code computes a third
    of 100 and twice that next above, and answers with the phrase of the
    middle cell. The coordinates are doubles. *)
Lemma positional_description_rounded_counterexample :
  let sel := Examples.besideTheLine in
  Double.representable (x sel) /\ Double.representable (y sel) /\
  Double.representable (width sel) /\ Double.representable (height sel) /\
  inThird Middle (y sel + height sel / 2) 100 /\
  inThird Last (x sel + width sel / 2) 100 /\
  cellPhrase Middle Last = "in the center right" /\
  getPositionalDescription sel 100 100 = "in the center".
Proof.
  cbv zeta. unfold Double.representable.
  repeat split; try (vm_compute; reflexivity); vm_compute; discriminate.
Qed.

(** C7, amended: [getPositionalDescription] returns one of the nine
    phrases, the one of the cell its double arithmetic puts the center of
    the selection in: with the center and the third of each side as the
    code computes them, each operation rounded, a coordinate below the
    third is in the first third, else one above twice the third is in the
    last third, else it is in the middle third. The center for the middle
    third both ways, the four areas for the corners, center left or right
    and top or bottom center for the other four cells. With positive
    sides, that cell is the cell of the grid of thirds the center is in
    when the center is off the lines of the grid by more than the slack of
    the rounding, 2^-52 of the sizes involved, both ways, and also when the
    center, the third and twice the third are computed without
    rounding. *)
Theorem positional_description_by_cell :
  forall (selection : Selection) (imageWidth imageHeight : Q),
    let centerX := Double.add (x selection) (Double.div (width selection) 2) in
    let centerY := Double.add (y selection) (Double.div (height selection) 2) in
    let horizontalThird := Double.div imageWidth 3 in
    let verticalThird := Double.div imageHeight 3 in
    let phrase := getPositionalDescription selection imageWidth imageHeight in
    let exactGrid :=
      (exists vertical horizontal,
          inThird vertical (y selection + height selection / 2) imageHeight /\
          inThird horizontal (x selection + width selection / 2) imageWidth) /\
      (forall vertical horizontal,
          inThird vertical (y selection + height selection / 2) imageHeight ->
          inThird horizontal (x selection + width selection / 2) imageWidth ->
          phrase = cellPhrase vertical horizontal) in
    In phrase phrases /\
    (exists vertical horizontal,
        computedThird vertical centerY verticalThird /\
        computedThird horizontal centerX horizontalThird) /\
    (forall vertical horizontal,
        computedThird vertical centerY verticalThird ->
        computedThird horizontal centerX horizontalThird ->
        phrase = cellPhrase vertical horizontal) /\
    (0 < imageWidth -> 0 < imageHeight ->
     offTheLines (x selection) (width selection) imageWidth ->
     offTheLines (y selection) (height selection) imageHeight ->
     exactGrid) /\
    (0 < imageWidth -> 0 < imageHeight ->
     centerX == x selection + width selection / 2 ->
     centerY == y selection + height selection / 2 ->
     horizontalThird == imageWidth / 3 ->
     Double.mul horizontalThird 2 == 2 * imageWidth / 3 ->
     verticalThird == imageHeight / 3 ->
     Double.mul verticalThird 2 == 2 * imageHeight / 3 ->
     exactGrid).
Proof.
  intros selection imageWidth imageHeight
         centerX centerY horizontalThird verticalThird phrase exactGrid.
  assert (K : exists vertical horizontal,
             computedThird vertical centerY verticalThird /\
             computedThird horizontal centerX horizontalThird /\
             phrase = cellPhrase vertical horizontal).
  { unfold phrase, getPositionalDescription.
    fold centerX centerY horizontalThird verticalThird.
    destruct (third_cases centerY verticalThird)
      as [[V1 TV]|[[V1 [V2 TV]]|[V1 [V2 TV]]]];
      destruct (third_cases centerX horizontalThird)
        as [[H1 TH]|[[H1 [H2 TH]]|[H1 [H2 TH]]]];
      rewrite V1, ?V2, H1, ?H2;
      do 2 eexists; (split; [exact TV | split; [exact TH | reflexivity]]). }
  destruct K as [v [h [TV [TH E]]]].
  assert (G : 0 < imageWidth -> 0 < imageHeight ->
              inThird v (y selection + height selection / 2) imageHeight ->
              inThird h (x selection + width selection / 2) imageWidth ->
              exactGrid).
  { intros PW PH GV GH. split; [exists v, h; split; assumption|].
    intros v' h' TV' TH'.
    rewrite (third_unique _ _ _ _ PH TV' GV), (third_unique _ _ _ _ PW TH' GH).
    exact E. }
  split; [|split; [|split; [|split]]].
  - rewrite E. destruct v, h; simpl; tauto.
  - exists v, h. split; assumption.
  - intros v' h' TV' TH'.
    rewrite (computedThird_unique _ _ _ _ TV' TV),
            (computedThird_unique _ _ _ _ TH' TH).
    exact E.
  - intros PW PH OX OY. apply (G PW PH).
    + exact (computedThird_off_lines _ _ _ _ PH OY TV).
    + exact (computedThird_off_lines _ _ _ _ PW OX TH).
  - intros PW PH EX EY EW EW2 EH EH2. apply (G PW PH).
    + exact (computedThird_exact _ _ _ _ _ PH EY EH EH2 TV).
    + exact (computedThird_exact _ _ _ _ _ PW EX EW EW2 TH).
Qed.

Lemma positional_description_by_cell_witness :
  getPositionalDescription Examples.centered 1280 720 = "in the center" /\
  getPositionalDescription Examples.centeredInThirds 1200 900 = "in the center".
Proof.
  split.
  - apply (proj2 (proj1 (proj2 (proj2 (proj2
             (positional_description_by_cell Examples.centered 1280 720))))
             eq_refl eq_refl
             ltac:(split; vm_compute; reflexivity)
             ltac:(split; vm_compute; reflexivity))
             Middle Middle);
      simpl; split; discriminate.
  - apply (proj2 (proj2 (proj2 (proj2 (proj2
             (positional_description_by_cell Examples.centeredInThirds 1200 900))))
             eq_refl eq_refl
             ltac:(vm_compute; reflexivity) ltac:(vm_compute; reflexivity)
             ltac:(vm_compute; reflexivity) ltac:(vm_compute; reflexivity)
             ltac:(vm_compute; reflexivity) ltac:(vm_compute; reflexivity))
             Middle Middle);
      simpl; split; discriminate.
Defined.

End PositionClaims.

(** ** The application state machine *)

Section AppFacts.
Import App.
Local Open Scope Z_scope.

(** The progress effect touches the progress and nothing else. *)
Lemma progressEffect_fields prev s timers :
  let s' := fst (progressEffect prev s timers) in
  appState s' = appState s /\ videoFile s' = videoFile s /\
  frameSrc s' = frameSrc s /\ selection s' = selection s /\
  processedImageSrc s' = processedImageSrc s /\
  processedVideoUrl s' = processedVideoUrl s /\
  isApiKeySelected s' = isApiKeySelected s /\
  error s' = error s /\ isQuotaError s' = isQuotaError s.
Proof.
  unfold progressEffect.
  destruct (AppState.eqb prev (appState s)); [|destruct (appState s) eqn:A];
    cbn; rewrite ?A; repeat split; reflexivity.
Qed.

(** When [appState] has changed, the effect leaves the progress at 0. *)
Lemma progressEffect_resets prev s timers :
  AppState.eqb prev (appState s) = false ->
  progress (fst (progressEffect prev s timers)) = 0.
Proof.
  unfold progressEffect. intros ->. destruct (appState s); reflexivity.
Qed.

Lemma commit_state sys s' call :
  state (commit sys s' call) = fst (progressEffect (appState (state sys)) s' (timers sys)).
Proof.
  unfold commit. destruct (progressEffect _ _ _). reflexivity.
Qed.

Lemma commit_inFlight sys s' call : inFlight (commit sys s' call) = call.
Proof.
  unfold commit. destruct (progressEffect _ _ _). reflexivity.
Qed.

Lemma Invariant_commit sys s' call :
  Invariant s' call ->
  Invariant (state (commit sys s' call)) (inFlight (commit sys s' call)).
Proof.
  rewrite commit_state, commit_inFlight.
  destruct (progressEffect_fields (appState (state sys)) s' (timers sys))
    as [A [_ [F [_ [P [_ [_ [E Q]]]]]]]].
  unfold Invariant, hasMessage. rewrite A, F, P, E, Q. exact (fun H => H).
Qed.

Lemma includes_empty_marker (sub : string) :
  sub <> "" -> forall s, includes s sub = true -> s <> "".
Proof.
  intros N s H ->. rewrite (includes_nil_false _ N) in H. discriminate.
Qed.

(** What [removeObjectFromFrame] throws is an [Error] with a message. *)
Lemma removeObject_error_message r e :
  Client.removeObjectFromFrame r = Err e ->
  instanceofError e = true /\ errorMessageOf e <> "".
Proof.
  unfold Client.removeObjectFromFrame.
  destruct r as [v|[name message|text]]; [discriminate| |].
  - destruct (includes message "API quota") eqn:Q.
    + intros H. injection H as <-. split; [reflexivity|].
      apply (includes_empty_marker "API quota"); [discriminate | exact Q].
    + destruct (includes message "403"); intros H; injection H as <-;
        split; (reflexivity || discriminate).
  - intros H. injection H as <-. split; (reflexivity || discriminate).
Qed.

(** So is what [generateVideoFromFrame] throws, when the class name of the
    error it caught has none of its two markers in it. *)
Lemma generateVideo_error_message r e :
  match r with Err e0 => plainName e0 = true | Ok _ => True end ->
  Client.generateVideoFromFrame r = Err e ->
  instanceofError e = true /\ errorMessageOf e <> "".
Proof.
  unfold Client.generateVideoFromFrame.
  destruct r as [v|e0]; [discriminate|]. intros P.
  destruct (includes (toString e0) "API quota" || includes (toString e0) "API key not found")
    eqn:M.
  - destruct e0 as [name message|text]; cbn [instanceofError].
    + intros H. injection H as <-. split; [reflexivity|].
      cbn [errorMessageOf]. intros ->.
      cbn [plainName] in P. apply andb_true_iff in P. destruct P as [P1 P2].
      apply negb_true_iff in P1. apply negb_true_iff in P2.
      cbn [toString] in M.
      destruct (name =? "")%string eqn:N.
      * apply String.eqb_eq in N. subst name. discriminate.
      * cbn in M. rewrite P1, P2 in M. discriminate.
    + intros H. injection H as <-. split; [reflexivity|].
      cbn [errorMessageOf toString] in *.
      apply orb_true_iff in M. destruct M as [M|M].
      * apply (includes_empty_marker "API quota"); [discriminate | exact M].
      * apply (includes_empty_marker "API key not found"); [discriminate | exact M].
  - destruct (includes (toString e0) "404" || includes (toString e0) "NOT_FOUND");
      [|destruct (includes (toString e0) "403" || includes (toString e0) "API_KEY_INVALID")];
      intros H; injection H as <-; split; (reflexivity || discriminate).
Qed.

End AppFacts.

Section AppInvariant.
Import App.
Local Open Scope Z_scope.

(** The views with a button that starts over are those of the states
    where nothing is in flight. *)
Lemma offersReset_states s :
  offersReset (renderContent s) = true ->
  appState s = AppState.complete \/ appState s = AppState.video_complete \/
  appState s = AppState.error.
Proof.
  unfold renderContent. destruct (appState s); auto; intros H; exfalso;
    repeat match type of H with
           | context [match ?v with _ => _ end] => destruct v
           end; discriminate.
Qed.

Lemma in_flight_not_settled s call c :
  Invariant s call -> call = Some c ->
  appState s = AppState.complete \/ appState s = AppState.video_complete \/
  appState s = AppState.error -> False.
Proof.
  intros [_ [_ I]] -> H. destruct I as [[P|P] _];
    rewrite P in H; destruct H as [H|[H|H]]; discriminate.
Qed.

Lemma handleRemoveLogo_start_some s s' call :
  handleRemoveLogo_start s = Some (s', call) ->
  truthy (frameSrc s) = true /\
  s' = (s |> setAppState AppState.processing |> setError None
          |> setIsQuotaError false) /\
  exists b sel, call = RemoveObject b sel.
Proof.
  unfold handleRemoveLogo_start.
  destruct (frameSrc s) as [src|]; [|discriminate].
  destruct (selection s) as [sel|]; [|discriminate].
  destruct (truthy (Some src)) eqn:T; [|discriminate].
  intros H. injection H as <- <-. repeat split. eauto.
Qed.

Lemma handleGenerateVideo_start_some s s' call :
  handleGenerateVideo_start s = Some (s', call) ->
  truthy (processedImageSrc s) = true /\
  s' = (s |> setAppState AppState.generating_video |> setError None
          |> setIsQuotaError false) /\
  exists b, call = GenerateVideo b.
Proof.
  unfold handleGenerateVideo_start.
  destruct (processedImageSrc s) as [src|]; [|discriminate].
  destruct (truthy (Some src)) eqn:T; [|discriminate].
  intros H. injection H as <- <-. repeat split. eauto.
Qed.

(** A failed operation of the client leaves an error state with the
    message of what was thrown. *)
Lemma handleRemoveLogo_settle_err e s :
  let s' := handleRemoveLogo_settle (Err e) s in
  appState s' = AppState.error /\ error s' = Some (errorMessageOf e) /\
  frameSrc s' = frameSrc s /\ processedImageSrc s' = processedImageSrc s /\
  (isQuotaError s' = true ->
   isQuotaError s = true \/ includes (errorMessageOf e) "API quota" = true).
Proof.
  unfold handleRemoveLogo_settle.
  destruct (includes (errorMessageOf e) "API quota"); cbn; auto 10.
Qed.

Lemma handleGenerateVideo_settle_err e s :
  let s' := handleGenerateVideo_settle (Err e) s in
  appState s' = AppState.error /\ error s' = Some (errorMessageOf e) /\
  frameSrc s' = frameSrc s /\ processedImageSrc s' = processedImageSrc s.
Proof.
  unfold handleGenerateVideo_settle.
  destruct (includes (errorMessageOf e) "API quota"
            || includes (errorMessageOf e) "API key not found");
    destruct (includes (errorMessageOf e) "API key not found"); cbn; auto.
Qed.

(** Every event keeps the invariant. *)
Lemma step_Invariant sys ev :
  plainEvent ev = true ->
  Invariant (state sys) (inFlight sys) ->
  Invariant (state (step sys ev)) (inFlight (step sys ev)).
Proof.
  destruct sys as [s call t]. cbn [state inFlight]. intros P I.
  pose proof I as [I1 [I2 I3]].
  destruct ev as [a|file|sel| | | |a|r| ]; cbn [step state inFlight timers].
  - (* the check on mount *)
    apply Invariant_commit. destruct a; exact I.
  - (* a file is chosen *)
    destruct (renderContent s); try exact I.
    destruct (startsWith (fileType file) "video/"); [|exact I].
    apply Invariant_commit. repeat split; try discriminate. left. reflexivity.
  - (* the rectangle is drawn *)
    destruct (renderContent s); try exact I.
    apply Invariant_commit. exact I.
  - (* the removal is confirmed *)
    destruct (renderContent s) as [|src sel0|m p|o pi pv k| |er| ]; try exact I.
    destruct (removeDisabled sel0); [exact I|].
    destruct (handleRemoveLogo_start s) as [[s' c]|] eqn:St; [|exact I].
    apply handleRemoveLogo_start_some in St.
    destruct St as [F [-> [b [sel ->]]]].
    apply Invariant_commit. repeat split; try discriminate.
    + left. reflexivity.
    + exact F.
  - (* a video is asked for *)
    destruct (offersGenerateVideo (renderContent s)); [|exact I].
    destruct (handleGenerateVideo_start s) as [[s' c]|] eqn:St; [|exact I].
    apply handleGenerateVideo_start_some in St.
    destruct St as [F [-> [b ->]]].
    apply Invariant_commit. repeat split; try discriminate.
    + right. reflexivity.
    + exact F.
  - (* start over *)
    destruct (offersReset (renderContent s)) eqn:O; [|exact I].
    apply offersReset_states in O.
    apply Invariant_commit.
    destruct call as [c|].
    + elim (in_flight_not_settled _ _ c I eq_refl O).
    + repeat split; discriminate.
  - (* the credential is changed *)
    apply Invariant_commit. destruct a as [hasKey|]; [|exact I].
    unfold handleChangeApiKey.
    destruct hasKey; [|exact I].
    destruct (Bool.bool_dec (isQuotaError s) true) as [Q|Q].
    + rewrite Q. cbn [andb].
      assert (call = None) as ->.
      { destruct call as [c|]; [|reflexivity].
        destruct I3 as [_ [Q' _]]. congruence. }
      destruct (I2 Q) as [F|F].
      * destruct (truthy (processedImageSrc s));
          [|rewrite F]; repeat split; discriminate.
      * rewrite F. repeat split; discriminate.
    + apply not_true_is_false in Q. rewrite Q. exact I.
  - (* the call in flight settles *)
    destruct call as [[file|b sel|b]|]; [| | |exact I];
      destruct I3 as [_ [Q C]].
    + (* the frame extraction *)
      apply Invariant_commit. destruct r as [url|e].
      * repeat split; try discriminate. cbn. rewrite Q. discriminate.
      * repeat split.
        -- intros _. eexists. split; [reflexivity | discriminate].
        -- cbn. rewrite Q. discriminate.
    + (* the removal *)
      apply Invariant_commit.
      destruct (Client.removeObjectFromFrame r) as [v|e] eqn:R.
      * repeat split; try discriminate. cbn. rewrite Q. discriminate.
      * destruct (removeObject_error_message _ _ R) as [_ M].
        destruct (handleRemoveLogo_settle_err e s) as [A [E [F _]]].
        repeat split.
        -- intros _. exists (errorMessageOf e). split; [exact E | exact M].
        -- intros _. left. rewrite F. exact C.
    + (* the video generation *)
      apply Invariant_commit.
      destruct (Client.generateVideoFromFrame r) as [v|e] eqn:R.
      * repeat split; try discriminate. cbn. rewrite Q. discriminate.
      * assert (P' : match r with Err e0 => plainName e0 = true | Ok _ => True end).
        { destruct r; [exact Logic.I | exact P]. }
        destruct (generateVideo_error_message _ _ P' R) as [_ M].
        destruct (handleGenerateVideo_settle_err e s) as [A [E [_ F]]].
        repeat split.
        -- intros _. exists (errorMessageOf e). split; [exact E | exact M].
        -- intros _. right. rewrite F. exact C.
  - (* a timer of the progress fires *)
    destruct t; exact I.
Qed.

Lemma Invariant_initial : Invariant initialState None.
Proof. repeat split; discriminate. Qed.

(** The invariant holds all along a run. *)
Lemma run_Invariant evs : forall sys,
  forallb plainEvent evs = true ->
  Invariant (state sys) (inFlight sys) ->
  Invariant (state (run evs sys)) (inFlight (run evs sys)).
Proof.
  induction evs as [|ev evs IH]; intros sys P I.
  - exact I.
  - cbn [forallb] in P. apply andb_true_iff in P. destruct P as [P Ps].
    cbn [run fold_left]. apply (IH (step sys ev) Ps).
    apply step_Invariant; assumption.
Qed.

End AppInvariant.

Section AppClaims.
Import App.
Local Open Scope Z_scope.

(** The inpainting call succeeds in the first scenario of the
    specification: the application ends in [complete] with the processed
    image, and its progress is 0, not 100. *)
Lemma inpaint_success_progress_counterexample :
  let after := step Examples.removing (Settle (Ok Examples.inpainted)) in
  appState (state Examples.removing) = AppState.processing /\
  appState (state after) = AppState.complete /\
  progress (state after) <> 100.
Proof. vm_compute. repeat split; discriminate. Qed.

(** C4, amended: when the inpainting call succeeds while the state is
    [processing], [handleRemoveLogo] stores the processed image, sets the
    progress to 100 and the state to [complete] in one batch of updates;
    the progress effect then runs for the new state, clears its timers and
    puts the progress back to 0, so that the application rests in
    [complete] with the processed image and a progress of 0. *)
Theorem inpaint_success_then_progress_reset :
  forall (sys : Sys) (b : option string) (sel : Position.Selection)
         (resultBase64 : string),
    appState (state sys) = AppState.processing ->
    inFlight sys = Some (RemoveObject b sel) ->
    let image := Some ("data:image/png;base64," ++ resultBase64) in
    let batch := handleRemoveLogo_settle
                   (Client.removeObjectFromFrame (Ok resultBase64)) (state sys) in
    let after := step sys (Settle (Ok resultBase64)) in
    (appState batch = AppState.complete /\ processedImageSrc batch = image /\
     progress batch = 100) /\
    (appState (state after) = AppState.complete /\
     processedImageSrc (state after) = image /\
     progress (state after) = 0 /\ timers after = [] /\ inFlight after = None).
Proof.
  intros sys b sel resultBase64 A F image batch after.
  split; [repeat split|].
  unfold after. destruct sys as [s call t]. cbn [state inFlight] in *.
  subst call. cbn [step state inFlight timers].
  unfold commit. cbn [state timers]. unfold progressEffect. rewrite A.
  cbn. repeat split.
Qed.

Lemma inpaint_success_then_progress_reset_witness :
  let after := step Examples.removing (Settle (Ok Examples.inpainted)) in
  appState (state after) = AppState.complete /\
  processedImageSrc (state after) = Some "data:image/png;base64,BBBB" /\
  progress (state after) = 0.
Proof.
  destruct (inpaint_success_then_progress_reset Examples.removing
              (Some "AAAA") Examples.centered Examples.inpainted
              eq_refl eq_refl) as [_ [A [P [R _]]]].
  cbv zeta. split; [exact A | split; [exact P | exact R]].
Defined.

(** C5: in the [error] state with the quota flag set, when the user
    switches the credential and the check answers that one is selected,
    the error message and the quota flag are cleared and the state becomes
    [complete] if there is a processed image, and otherwise [video_loaded]
    if there is a frame; the images are kept. *)
Theorem change_key_after_quota_error :
  forall (sys : Sys),
    appState (state sys) = AppState.error ->
    isQuotaError (state sys) = true ->
    let s := state sys in
    let s' := state (step sys (ClickChangeKey (Some true))) in
    error s' = None /\ isQuotaError s' = false /\
    isApiKeySelected s' = Some true /\
    (truthy (processedImageSrc s) = true -> appState s' = AppState.complete) /\
    (truthy (processedImageSrc s) = false -> truthy (frameSrc s) = true ->
     appState s' = AppState.video_loaded) /\
    frameSrc s' = frameSrc s /\ processedImageSrc s' = processedImageSrc s /\
    inFlight (step sys (ClickChangeKey (Some true))) = inFlight sys.
Proof.
  intros sys A Q s s'. unfold s'. cbn [step].
  rewrite commit_state, commit_inFlight.
  destruct (progressEffect_fields (appState (state sys))
              (handleChangeApiKey (Some true) (state sys)) (timers sys))
    as [EA [_ [EF [_ [EP [_ [EK [EE EQ]]]]]]]].
  rewrite EA, EF, EP, EK, EE, EQ. fold s.
  unfold handleChangeApiKey. fold s. unfold s in Q. fold s in Q. rewrite Q.
  cbn [andb].
  destruct (truthy (processedImageSrc s)); [|destruct (truthy (frameSrc s))];
    cbn; repeat split; auto; discriminate.
Qed.

Lemma change_key_after_quota_error_witness :
  let sys := run Examples.quotaFailure initialSys in
  appState (state (step sys (ClickChangeKey (Some true)))) = AppState.video_loaded /\
  error (state (step sys (ClickChangeKey (Some true)))) = None.
Proof.
  destruct (change_key_after_quota_error (run Examples.quotaFailure initialSys)
              eq_refl eq_refl) as [E [_ [_ [_ [V _]]]]].
  cbv zeta. split; [apply V; reflexivity | exact E].
Defined.

(** C6: [handleReset] takes every state to [idle] with the video file, the
    frame, the selection, the processed image, the processed video and the
    error message set to null, the quota flag down and the progress at 0
    (the credential flag is kept); the progress effect changes nothing of
    it, and where a button to start over is shown, pressing it gives that
    state. *)
Theorem reset_returns_to_idle :
  (forall s : State,
      handleReset s
      = mkState AppState.idle None None None None None
                (isApiKeySelected s) None false 0) /\
  (forall sys : Sys,
      state (commit sys (handleReset (state sys)) (inFlight sys))
      = handleReset (state sys)) /\
  (forall sys : Sys,
      offersReset (renderContent (state sys)) = true ->
      state (step sys ClickStartOver) = handleReset (state sys)).
Proof.
  assert (C : forall sys : Sys,
             state (commit sys (handleReset (state sys)) (inFlight sys))
             = handleReset (state sys)).
  { intros [s call t]. unfold commit, progressEffect. cbn [state timers].
    destruct (AppState.eqb (appState s) (appState (handleReset s)));
      [reflexivity|].
    destruct s. vm_compute. reflexivity. }
  split; [intros s; destruct s; vm_compute; reflexivity | split; [exact C|]].
  intros sys O. cbn [step]. rewrite O. apply C.
Qed.

Lemma reset_returns_to_idle_witness :
  state (step (run Examples.quotaFailure initialSys) ClickStartOver)
  = mkState AppState.idle None None None None None (Some true) None false 0.
Proof.
  rewrite (proj2 (proj2 reset_returns_to_idle)
             (run Examples.quotaFailure initialSys) eq_refl).
  reflexivity.
Defined.

End AppClaims.

Section AppGuards.
Import App.
Local Open Scope Z_scope.

Lemma ltb_complete (a b : Q) : (a < b)%Q -> Position.ltb a b = true.
Proof.
  intros L. destruct (Position.ltb a b) eqn:E; [reflexivity|].
  apply ltb_false in E. elim (Qlt_not_le _ _ L E).
Qed.

(** C8: in [video_loaded], confirming the removal with no frame loaded,
    or with a selection less than 5 pixels wide or high (or with no
    selection), changes nothing: no call is made, and the state, the call
    in flight and the timers are what they were. Without a frame
    [handleRemoveLogo] itself returns at once. *)
Theorem confirm_removal_rejected :
  forall (sys : Sys),
    appState (state sys) = AppState.video_loaded ->
    truthy (frameSrc (state sys)) = false \/
    selection (state sys) = None \/
    (exists sel, selection (state sys) = Some sel /\
                 (Position.width sel < 5 \/ Position.height sel < 5)%Q) ->
    step sys ClickRemoveObject = sys /\
    (truthy (frameSrc (state sys)) = false ->
     handleRemoveLogo_start (state sys) = None).
Proof.
  intros [s call t] A H. cbn [state] in *. split.
  - cbn [step state]. unfold renderContent. rewrite A.
    destruct (frameSrc s) as [src|] eqn:F; [|reflexivity].
    destruct (truthy (Some src)) eqn:T; [|reflexivity].
    destruct H as [H|[H|[sel [H L]]]].
    + discriminate.
    + rewrite H. reflexivity.
    + rewrite H. unfold removeDisabled.
      destruct L as [L|L]; rewrite (ltb_complete _ _ L);
        rewrite ?orb_true_r; reflexivity.
  - intros T. unfold handleRemoveLogo_start.
    destruct (frameSrc s) as [src|]; [|reflexivity].
    destruct (selection s); [|reflexivity]. rewrite T. reflexivity.
Qed.

Lemma confirm_removal_rejected_witness :
  step (run Examples.upToNarrow initialSys) ClickRemoveObject
  = run Examples.upToNarrow initialSys.
Proof.
  apply (confirm_removal_rejected (run Examples.upToNarrow initialSys) eq_refl).
  right. right. exists Examples.narrow. split; [reflexivity|].
  left. reflexivity.
Defined.

(** The message of the [error] state, for errors whose class names do not
    contain the two markers [generateVideoFromFrame] searches
    [String(error)] for: all along a run of the application, whenever the
    state is [error] the stored message is not null and not empty, and
    each of the three failures (of the frame extraction, of the
    inpainting, of the video generation) ends in [error] with such a
    message. *)
Theorem error_state_has_message :
  (forall evs : list Event,
      forallb plainEvent evs = true ->
      let s := state (run evs initialSys) in
      appState s = AppState.error -> hasMessage s) /\
  (forall (s : State) (e : Thrown),
      let s' := handleFileSelect_settle (Err e) s in
      appState s' = AppState.error /\ hasMessage s') /\
  (forall (s : State) (e : Thrown),
      let s' := handleRemoveLogo_settle (Client.removeObjectFromFrame (Err e)) s in
      appState s' = AppState.error /\ hasMessage s') /\
  (forall (s : State) (e : Thrown),
      plainName e = true ->
      let s' := handleGenerateVideo_settle (Client.generateVideoFromFrame (Err e)) s in
      appState s' = AppState.error /\ hasMessage s').
Proof.
  split; [|split; [|split]].
  - intros evs P s.
    destruct (run_Invariant evs initialSys P Invariant_initial) as [I _].
    exact I.
  - intros s e. cbn. split; [reflexivity|].
    eexists. split; [reflexivity | discriminate].
  - intros s e s'. unfold s'.
    destruct (Client.removeObjectFromFrame (Err e)) as [v|e'] eqn:R.
    + destruct e as [name message|text]; cbn in R;
        repeat match type of R with
               | context [if ?c then _ else _] => destruct c
               end; discriminate.
    + destruct (removeObject_error_message _ _ R) as [_ M].
      destruct (handleRemoveLogo_settle_err e' s) as [A [E _]].
      split; [exact A|]. exists (errorMessageOf e'). split; [exact E | exact M].
  - intros s e P s'. unfold s'.
    destruct (Client.generateVideoFromFrame (Err e)) as [v|e'] eqn:R.
    + unfold Client.generateVideoFromFrame in R.
      repeat match type of R with
             | context [if ?c then _ else _] => destruct c
             end; discriminate.
    + destruct (generateVideo_error_message (Err e) e' P R) as [_ M].
      destruct (handleGenerateVideo_settle_err e' s) as [A [E _]].
      split; [exact A|]. exists (errorMessageOf e'). split; [exact E | exact M].
Qed.

Lemma error_state_has_message_witness :
  hasMessage (state (run Examples.quotaFailure initialSys)) /\
  hasMessage (handleGenerateVideo_settle
                (Client.generateVideoFromFrame (Err Examples.keyNotFound))
                initialState).
Proof.
  split.
  - apply (proj1 error_state_has_message Examples.quotaFailure eq_refl eq_refl).
  - apply (proj2 (proj2 (proj2 error_state_has_message))
             initialState Examples.keyNotFound eq_refl).
Defined.


(** C10: when the video generation fails with an error whose message
    contains API key not found, [handleGenerateVideo] sets the quota flag,
    sets the credential flag to false and then enters [error], so that
    [renderContent] shows the panel of the quota error. The error thrown
    for a download that answers that the entity was not found is such an
    error: [withRetry] does not retry it and [generateVideoFromFrame]
    passes it on as it is. *)
Theorem key_not_found_shows_quota_panel :
  (forall (s : State) (name message : string),
      includes message "API key not found" = true ->
      let s' := handleGenerateVideo_settle (Err (JsError name message)) s in
      isQuotaError s' = true /\ isApiKeySelected s' = Some false /\
      error s' = Some message /\ appState s' = AppState.error /\
      renderContent s' = QuotaErrorPanel) /\
  (forall (sys : Sys) (b : option string) (e : Thrown) (name message : string),
      inFlight sys = Some (GenerateVideo b) ->
      Client.generateVideoFromFrame (Err e) = Err (JsError name message) ->
      includes message "API key not found" = true ->
      let s' := state (step sys (Settle (Err e))) in
      isQuotaError s' = true /\ isApiKeySelected s' = Some false /\
      appState s' = AppState.error /\ renderContent s' = QuotaErrorPanel) /\
  (forall (errorText status : string),
      includes errorText "Requested entity was not found." = true ->
      exists message,
        Client.downloadFailure false errorText status = Some (JsError "Error" message) /\
        includes message "API key not found" = true /\
        Retry.isQuotaError (toString (JsError "Error" message)) = false /\
        Client.generateVideoFromFrame (Err (JsError "Error" message))
        = Err (JsError "Error" message)).
Proof.
  assert (H1 : forall (s : State) (name message : string),
             includes message "API key not found" = true ->
             let s' := handleGenerateVideo_settle (Err (JsError name message)) s in
             isQuotaError s' = true /\ isApiKeySelected s' = Some false /\
             error s' = Some message /\ appState s' = AppState.error /\
             renderContent s' = QuotaErrorPanel).
  { intros s name message M. unfold handleGenerateVideo_settle.
    cbn [errorMessageOf]. rewrite M, orb_true_r. cbn. repeat split. }
  split; [exact H1 | split].
  - intros [s call t] b e name message F R M. cbn [inFlight] in F. subst call.
    cbn [step state inFlight]. rewrite R, commit_state.
    destruct (H1 s name message M) as [Q [K [_ [A V]]]].
    destruct (progressEffect_fields (appState (state (mkSys s (Some (GenerateVideo b)) t)))
                (handleGenerateVideo_settle (Err (JsError name message)) s)
                (timers (mkSys s (Some (GenerateVideo b)) t)))
      as [EA [_ [_ [_ [_ [_ [EK [_ EQ]]]]]]]].
    unfold renderContent. rewrite EA, EK, EQ, A, Q, K. repeat split.
  - intros errorText status M. eexists. unfold Client.downloadFailure.
    cbn [negb]. rewrite M. repeat split.
Qed.

Lemma key_not_found_shows_quota_panel_witness :
  let s' := state (step Examples.generating (Settle (Err Examples.keyNotFound))) in
  isQuotaError s' = true /\ isApiKeySelected s' = Some false /\
  appState s' = AppState.error /\ renderContent s' = QuotaErrorPanel.
Proof.
  apply (proj1 (proj2 key_not_found_shows_quota_panel)
           Examples.generating (Some "BBBB") Examples.keyNotFound "Error"
           "API key not found. Please select your API key again.");
    vm_compute; reflexivity.
Defined.

End AppGuards.

(** * Further properties *)

(** ** The retry controller: the shape of a run and what it throws *)

Section RetryRuns.
Import Retry RetryShape.
Local Open Scope Z_scope.

Lemma digitValue_nonneg (c : ascii) : isDigit c = true -> 0 <= digitValue c.
Proof.
  unfold isDigit, digitValue. intros H. apply andb_true_iff in H.
  destruct H as [H _]. apply Nat.leb_le in H. lia.
Qed.

Lemma parseDigits_nonneg (ds : string) : forall acc,
  0 <= acc -> allDigits ds = true -> 0 <= parseDigits acc ds.
Proof.
  induction ds as [|c ds IH]; intros acc A D; cbn [parseDigits].
  - exact A.
  - cbn [allDigits] in D. apply andb_true_iff in D. destruct D as [C D].
    apply IH; [|exact D]. pose proof (digitValue_nonneg c C). lia.
Qed.

(** What the pattern captures is a run of digits. *)
Lemma matchRetryDelay_digits (s ds : string) :
  matchRetryDelay s = Some ds -> allDigits ds = true.
Proof.
  induction s as [|c s IH]; cbn [matchRetryDelay];
    destruct (matchHere _) as [ds0|] eqn:M; intros H;
    try (injection H as <-; apply RetryFacts.matchHere_some in M;
         destruct M as [rest [_ [_ [D _]]]]; exact D).
  - discriminate.
  - apply IH, H.
Qed.

Lemma retryDelay_lower_bound (i : Z) (s : string) :
  0 <= i -> 500 <= retryDelay i s.
Proof.
  intros Hi. unfold retryDelay.
  assert (P : 0 < 2 ^ i) by (apply Z.pow_pos_nonneg; lia).
  destruct (matchRetryDelay s) as [ds|] eqn:M; [|lia].
  destruct (negb (ds =? "")%string); [|lia].
  pose proof (parseDigits_nonneg ds 0 ltac:(lia) (matchRetryDelay_digits _ _ M)) as N.
  unfold parseInt, Double.addZ, Double.mulZ.
  pose proof (roundDouble_ge 0 _ ltac:(lia) N) as N1.
  pose proof (roundDouble_ge 0 (Double.roundDouble (parseDigits 0 ds) * 1000)
                ltac:(lia) ltac:(lia)) as N2.
  apply roundDouble_ge; lia.
Qed.

Variables (W T : Type).
Variable apiCall : W -> Outcome T * W.
Variable serviceName : string.

(** From index [i], with the iterations that are left in [withRetry], a
    run is a call, then waits each followed by a call. *)
Lemma withRetryFrom_shape remaining : forall i w tr,
  0 <= i -> i + Z.of_nat (S remaining) = MAX_RETRIES ->
  exists ds,
    snd (withRetryFrom apiCall serviceName (S remaining) i w tr)
    = (tr ++ Attempt :: waitsAndCalls ds)%list /\
    (List.length ds <= remaining)%nat /\ Forall (fun d => 500 <= d) ds.
Proof.
  induction remaining as [|n IH]; intros i w tr Hi Hr.
  - exists []. split; [|split; [reflexivity | constructor]].
    destruct (apiCall w) as [[v|e] w1] eqn:C.
    + rewrite (withRetryFrom_ok _ _ _ _ _ _ _ _ _ _ C). reflexivity.
    + destruct (isQuotaError (toString e)) eqn:Q.
      * rewrite (withRetryFrom_last _ _ _ _ _ _ _ _ _ _ C Q) by lia. reflexivity.
      * rewrite (withRetryFrom_fatal _ _ _ _ _ _ _ _ _ _ C Q). reflexivity.
  - destruct (apiCall w) as [[v|e] w1] eqn:C.
    + exists []. rewrite (withRetryFrom_ok _ _ _ _ _ _ _ _ _ _ C).
      split; [reflexivity | split; [cbn; lia | constructor]].
    + destruct (isQuotaError (toString e)) eqn:Q.
      * rewrite (withRetryFrom_retry _ _ _ _ _ _ _ _ _ _ C Q) by lia.
        destruct (IH (i + 1) w1
                    (tr ++ [Attempt; Delay (retryDelay i (toString e))])%list
                    ltac:(lia) ltac:(lia)) as [ds [E [L F]]].
        exists (retryDelay i (toString e) :: ds). rewrite E, <- app_assoc.
        split; [reflexivity | split; [cbn; lia|]].
        constructor; [apply retryDelay_lower_bound, Hi | exact F].
      * exists []. rewrite (withRetryFrom_fatal _ _ _ _ _ _ _ _ _ _ C Q).
        split; [reflexivity | split; [cbn; lia | constructor]].
Qed.

(** Where the result of the loop comes from. *)
Lemma withRetryFrom_origin remaining : forall i w tr,
  match fst (fst (withRetryFrom apiCall serviceName remaining i w tr)) with
  | Ok v => exists w0, fst (apiCall w0) = Ok v
  | Err e => e = quotaExceeded serviceName \/
             (isQuotaError (toString e) = false /\
              exists w0, fst (apiCall w0) = Err e)
  end.
Proof.
  induction remaining as [|n IH]; intros i w tr.
  - left. reflexivity.
  - destruct (apiCall w) as [[v|e] w1] eqn:C.
    + rewrite (withRetryFrom_ok _ _ _ _ _ _ _ _ _ _ C). exists w.
      rewrite C. reflexivity.
    + destruct (isQuotaError (toString e)) eqn:Q.
      * destruct (Z.lt_ge_cases i (MAX_RETRIES - 1)) as [Hi|Hi].
        -- rewrite (withRetryFrom_retry _ _ _ _ _ _ _ _ _ _ C Q Hi). apply IH.
        -- rewrite (withRetryFrom_last _ _ _ _ _ _ _ _ _ _ C Q Hi). apply IH.
      * rewrite (withRetryFrom_fatal _ _ _ _ _ _ _ _ _ _ C Q). right.
        split; [exact Q|]. exists w. rewrite C. reflexivity.
Qed.

End RetryRuns.

(** X1: every run of [withRetry] is a call followed by at most two waits,
    each of them followed by another call: it never waits before the first
    call nor after the last one, and every wait is at least 500 ms long. *)
Theorem withRetry_run_shape :
  forall (W T : Type) (apiCall : W -> Outcome T * W) (serviceName : string) (w : W),
  exists ds : list Z,
    snd (Retry.withRetry apiCall serviceName w)
    = (Retry.Attempt :: RetryShape.waitsAndCalls ds)%list /\
    (List.length ds <= 2)%nat /\ Forall (fun d => (500 <= d)%Z) ds.
Proof.
  intros W T apiCall serviceName w. unfold Retry.withRetry.
  exact (withRetryFrom_shape W T apiCall serviceName 2 0%Z w []
           ltac:(lia) eq_refl).
Qed.

(** X2: what [withRetry] returns is a value the operation returned; what
    it throws is its own quota-exceeded error or an error the operation
    threw that is no quota error: a quota error of the operation never
    reaches the caller as it is. *)
Theorem withRetry_result_origin :
  forall (W T : Type) (apiCall : W -> Outcome T * W) (serviceName : string) (w : W),
    match fst (fst (Retry.withRetry apiCall serviceName w)) with
    | Ok v => exists w0, fst (apiCall w0) = Ok v
    | Err e => e = Retry.quotaExceeded serviceName \/
               (Retry.isQuotaError (toString e) = false /\
                exists w0, fst (apiCall w0) = Err e)
    end.
Proof.
  intros W T apiCall serviceName w. unfold Retry.withRetry.
  apply withRetryFrom_origin.
Qed.

(** ** The retry controller: the suggested delay *)

Section RetryDelayField.
Import Retry RetryShape.
Local Open Scope Z_scope.

Lemma delayField_uncons (c c' : ascii) (s pre ds rest : string) :
  delayField (String c s) (String c' pre) ds rest -> delayField s pre ds rest.
Proof.
  intros [E H]. split; [|exact H]. cbn [append] in E. congruence.
Qed.

Lemma firstDelayField_cons (c : ascii) (s pre ds rest : string) :
  matchHere (String c s) = None ->
  firstDelayField s pre ds rest ->
  firstDelayField (String c s) (String c pre) ds rest.
Proof.
  intros M [F L]. split; [apply RetryFacts.delayField_cons, F|].
  intros pre' ds' rest' F'. destruct pre' as [|c' pre'].
  - rewrite (RetryFacts.matchHere_field _ _ _ F') in M. discriminate.
  - apply delayField_uncons in F'. apply L in F'. cbn [String.length]. lia.
Qed.

Lemma matchRetryDelay_some (s ds : string) :
  matchRetryDelay s = Some ds -> exists pre rest, firstDelayField s pre ds rest.
Proof.
  induction s as [|c s IH]; cbn [matchRetryDelay];
    destruct (matchHere _) as [ds0|] eqn:M; intros H.
  - injection H as <-. apply RetryFacts.matchHere_some in M.
    destruct M as [rest F]. exists "", rest. split; [exact F|].
    intros. apply Nat.le_0_l.
  - discriminate.
  - injection H as <-. apply RetryFacts.matchHere_some in M.
    destruct M as [rest F]. exists "", rest. split; [exact F|].
    intros. apply Nat.le_0_l.
  - destruct (IH H) as [pre [rest F]].
    exists (String c pre), rest. apply firstDelayField_cons; assumption.
Qed.

Lemma matchRetryDelay_none_inv (s : string) :
  matchRetryDelay s = None -> noDelayField s.
Proof.
  intros H pre ds rest F.
  assert (G : exists pre0 ds0 rest0, firstDelayField s pre0 ds0 rest0).
  { clear H. revert s ds rest F.
    induction pre as [|c pre IH]; intros s ds rest F.
    - exists "", ds, rest. split; [exact F|]. intros. apply Nat.le_0_l.
    - pose proof F as [E _]. cbn [append] in E. subst s.
      destruct (matchHere (String c (pre ++ retryDelayKey ++ ds ++ rest)))
        as [ds0|] eqn:M.
      + apply RetryFacts.matchHere_some in M. destruct M as [rest0 F0].
        exists "", ds0, rest0. split; [exact F0|]. intros. apply Nat.le_0_l.
      + destruct (IH (pre ++ retryDelayKey ++ ds ++ rest) ds rest)
          as [pre0 [ds0 [rest0 F0]]].
        { destruct F as [_ F]. split; [reflexivity | exact F]. }
        exists (String c pre0), ds0, rest0.
        apply firstDelayField_cons; assumption. }
  destruct G as [pre0 [ds0 [rest0 F0]]].
  rewrite (RetryFacts.matchRetryDelay_first _ _ _ _ F0) in H. discriminate.
Qed.

End RetryDelayField.

(** X3: the pattern of the suggested delay captures the digits [ds]
    exactly when [ds] are the digits of the first retryDelay field of the
    text, and captures nothing exactly when the text has no such field. *)
Theorem matchRetryDelay_characterised :
  forall s : string,
    (forall ds, Retry.matchRetryDelay s = Some ds <->
                exists pre rest, Retry.firstDelayField s pre ds rest) /\
    (Retry.matchRetryDelay s = None <-> Retry.noDelayField s).
Proof.
  intros s. split; [intros ds; split|split].
  - apply matchRetryDelay_some.
  - intros [pre [rest F]]. exact (RetryFacts.matchRetryDelay_first _ _ _ _ F).
  - apply matchRetryDelay_none_inv.
  - apply RetryFacts.matchRetryDelay_none.
Qed.

(** ** Markers in the text of an error *)

Section Markers.
Import Text.


Lemma prefix_cons_inv (a b : ascii) (m s : string) :
  prefix (String a m) (String b s) = true -> a = b /\ prefix m s = true.
Proof.
  cbn [prefix]. destruct (ascii_dec a b) as [E|N]; [auto | discriminate].
Qed.

(** A prefix without a colon ends before the colon. *)
Lemma prefix_before_colon (m : string) : forall x y,
  lacks ":"%char m = true ->
  prefix m (x ++ String ":"%char y) = true -> prefix m x = true.
Proof.
  induction m as [|a m IH]; intros x y L P.
  - destruct x; reflexivity.
  - cbn [lacks] in L. apply andb_true_iff in L. destruct L as [A L].
    destruct x as [|b x]; cbn [append] in P; apply prefix_cons_inv in P;
      destruct P as [E P].
    + subst a. rewrite Ascii.eqb_refl in A. discriminate.
    + subst b. cbn [prefix]. destruct (ascii_dec a a) as [_|N]; [|congruence].
      exact (IH x y L P).
Qed.

(** A one-sided marker found in a name, a colon, a space and a message is
    in the name or in the message. *)
Lemma includes_name_or_message (m name message : string) :
  oneSided m = true ->
  includes (name ++ ": " ++ message) m = true ->
  includes name m = true \/ includes message m = true.
Proof.
  unfold oneSided. intros O. apply andb_true_iff in O. destruct O as [L S].
  destruct m as [|a m]; [discriminate|].
  pose proof L as L'. cbn [lacks] in L'. apply andb_true_iff in L'.
  destruct L' as [A _].
  change (": " ++ message) with (String ":"%char (String " "%char message)).
  induction name as [|c name IH]; intros H.
  - right. cbn [append includes] in H.
    destruct (prefix (String a m) (String ":" (String " " message))) eqn:P1.
    { apply prefix_cons_inv in P1. destruct P1 as [E _]. subst a.
      rewrite Ascii.eqb_refl in A. discriminate. }
    destruct (prefix (String a m) (String " " message)) eqn:P2.
    { apply prefix_cons_inv in P2. destruct P2 as [E _]. subst a.
      rewrite Ascii.eqb_refl in S. discriminate. }
    exact H.
  - cbn [append includes] in H.
    destruct (prefix (String a m)
                (String c (name ++ String ":" (String " " message)))) eqn:P.
    + left. apply includes_prefix.
      apply (prefix_before_colon (String a m) (String c name) (String " " message) L).
      exact P.
    + destruct (IH H) as [I|I]; [left; apply includes_cons, I | right; exact I].
Qed.

(** So for an error whose class name has no such marker, the marker is in
    [String(error)] only if it is in the message. *)
Lemma marker_in_message (m name message : string) :
  oneSided m = true -> includes name m = false ->
  includes (toString (JsError name message)) m = true ->
  includes message m = true.
Proof.
  intros O N H. cbn [toString] in H.
  destruct (name =? "")%string; [exact H|].
  destruct (message =? "")%string; [congruence|].
  destruct (includes_name_or_message _ _ _ O H); congruence.
Qed.

End Markers.

(** ** What the user sees after a failure *)

Section FailureViews.
Import App.
Local Open Scope Z_scope.

(** A failure that is committed: the progress effect leaves what the error
    view shows as the handler set it. *)
Lemma committed_failure sys h call :
  appState h = AppState.error ->
  let s' := state (commit sys h call) in
  appState s' = AppState.error /\ error s' = error h /\
  isQuotaError s' = isQuotaError h /\
  isApiKeySelected s' = isApiKeySelected h /\
  frameSrc s' = frameSrc h /\ processedImageSrc s' = processedImageSrc h /\
  renderContent s' = (if isQuotaError h then QuotaErrorPanel else ErrorPanel (error h)).
Proof.
  intros A s'. unfold s'. rewrite commit_state.
  destruct (progressEffect_fields (appState (state sys)) h (timers sys))
    as [EA [_ [EF [_ [EP [_ [EK [EE EQ]]]]]]]].
  unfold renderContent. rewrite EA, EE, EQ, EK, EF, EP, A. repeat split.
Qed.

Lemma commit_isQuotaError sys h call :
  isQuotaError (state (commit sys h call)) = isQuotaError h.
Proof.
  rewrite commit_state.
  destruct (progressEffect_fields (appState (state sys)) h (timers sys))
    as [_ [_ [_ [_ [_ [_ [_ [_ Q]]]]]]]].
  exact Q.
Qed.

(** While a call is in flight the quota flag is down, whatever came
    before: the handler that starts a call lowers it, and nothing raises it
    but the failure of a call. *)
Lemma step_flight_quota sys ev :
  (inFlight sys <> None -> isQuotaError (state sys) = false) ->
  inFlight (step sys ev) <> None -> isQuotaError (state (step sys ev)) = false.
Proof.
  destruct sys as [s call t]. cbn [state inFlight]. intros I.
  destruct ev as [a|file|sel| | | |a|r| ]; cbn [step state inFlight timers].
  - rewrite commit_inFlight, commit_isQuotaError. intros F.
    destruct a; exact (I F).
  - destruct (renderContent s); try exact I.
    destruct (startsWith (fileType file) "video/"); [|exact I].
    rewrite commit_isQuotaError. reflexivity.
  - destruct (renderContent s); try exact I.
    rewrite commit_inFlight, commit_isQuotaError. exact I.
  - destruct (renderContent s) as [|src sel0|m p|o pi pv k| |er| ]; try exact I.
    destruct (removeDisabled sel0); [exact I|].
    destruct (handleRemoveLogo_start s) as [[s' c]|] eqn:St; [|exact I].
    apply handleRemoveLogo_start_some in St. destruct St as [_ [-> _]].
    rewrite commit_isQuotaError. reflexivity.
  - destruct (offersGenerateVideo (renderContent s)); [|exact I].
    destruct (handleGenerateVideo_start s) as [[s' c]|] eqn:St; [|exact I].
    apply handleGenerateVideo_start_some in St. destruct St as [_ [-> _]].
    rewrite commit_isQuotaError. reflexivity.
  - destruct (offersReset (renderContent s)); [|exact I].
    rewrite commit_isQuotaError. reflexivity.
  - rewrite commit_inFlight, commit_isQuotaError. intros F.
    destruct a as [hasKey|]; [|exact (I F)].
    unfold handleChangeApiKey.
    destruct (hasKey && isQuotaError s);
      [destruct (truthy (processedImageSrc s));
       [|destruct (truthy (frameSrc s))]; reflexivity
      |exact (I F)].
  - destruct call as [[file|b sel|b]|]; [| | |exact I];
      rewrite commit_inFlight; intros F; elim F; reflexivity.
  - destruct t; exact I.
Qed.

Lemma run_flight_quota evs : forall sys,
  (inFlight sys <> None -> isQuotaError (state sys) = false) ->
  inFlight (run evs sys) <> None -> isQuotaError (state (run evs sys)) = false.
Proof.
  induction evs as [|ev evs IH]; intros sys I; [exact I|].
  cbn [run fold_left]. apply (IH (step sys ev)), step_flight_quota, I.
Qed.

(** The errors [generateVideoFromFrame] throws, by their message. The last
    case is an error that is thrown on for a marker in its class name
    only. *)
Lemma generateVideo_classes (e : Thrown) :
  exists name m,
    Client.generateVideoFromFrame (Err e) = Err (JsError name m) /\
    (includes m "API quota" || includes m "API key not found" = true \/
     m = "API key is invalid or lacks permissions for the Veo model." \/
     m = "Failed to generate video with the AI model." \/
     (e = JsError name m /\
      includes name "API quota" || includes name "API key not found" = true /\
      includes m "API quota" || includes m "API key not found" = false)).
Proof.
  unfold Client.generateVideoFromFrame.
  destruct (includes (toString e) "API quota"
            || includes (toString e) "API key not found") eqn:M.
  - destruct e as [name message|text]; cbn [instanceofError].
    + exists name, message. split; [reflexivity|].
      destruct (includes message "API quota"
                || includes message "API key not found") eqn:MM; [left; reflexivity|].
      right. right. right. split; [reflexivity|]. split; [|reflexivity].
      apply orb_false_iff in MM. destruct MM as [M1 M2].
      apply orb_true_iff in M. apply orb_true_iff. destruct M as [M|M].
      * left. destruct (includes name "API quota") eqn:N; [reflexivity|].
        pose proof (marker_in_message "API quota" _ _ eq_refl N M). congruence.
      * right. destruct (includes name "API key not found") eqn:N; [reflexivity|].
        pose proof (marker_in_message "API key not found" _ _ eq_refl N M).
        congruence.
    + exists "Error", text. split; [reflexivity|]. left. exact M.
  - destruct (includes (toString e) "404" || includes (toString e) "NOT_FOUND").
    + do 2 eexists. split; [reflexivity|]. left. reflexivity.
    + destruct (includes (toString e) "403" || includes (toString e) "API_KEY_INVALID");
        do 2 eexists; (split; [reflexivity|]); auto.
Qed.

End FailureViews.

(** X5: when the inpainting fails, whatever was thrown, the application
    ends in [error] with the frame kept and no call in flight, and shows
    the quota panel (for an error whose message has API quota in it, which
    is then the stored message) or the general panel with one of two fixed
    messages. *)
Theorem removal_failure_views :
  forall (evs : list App.Event) (b : option string)
         (sel : Position.Selection) (e : Thrown),
    forallb App.plainEvent evs = true ->
    let sys := App.run evs App.initialSys in
    App.inFlight sys = Some (App.RemoveObject b sel) ->
    let sys' := App.step sys (App.Settle (Err e)) in
    App.appState (App.state sys') = AppState.error /\
    App.inFlight sys' = None /\
    App.frameSrc (App.state sys') = App.frameSrc (App.state sys) /\
    ((exists name message,
         e = JsError name message /\ includes message "API quota" = true /\
         App.error (App.state sys') = Some message /\
         App.renderContent (App.state sys') = App.QuotaErrorPanel) \/
     App.renderContent (App.state sys')
     = App.ErrorPanel (Some "API key is invalid or lacks permissions.") \/
     App.renderContent (App.state sys')
     = App.ErrorPanel (Some "Failed to process image with the AI model.")).
Proof.
  intros evs b sel e P sys F sys'.
  destruct (run_Invariant evs App.initialSys P Invariant_initial) as [_ [_ I]].
  fold sys in I. rewrite F in I. destruct I as [_ [Q _]].
  unfold sys'. destruct sys as [s call t]. cbn [App.state App.inFlight] in *.
  subst call. cbn [App.step App.state App.inFlight].
  rewrite commit_inFlight.
  set (h := App.handleRemoveLogo_settle (Client.removeObjectFromFrame (Err e)) s).
  assert (H : App.appState h = AppState.error /\ App.frameSrc h = App.frameSrc s /\
              ((exists name message,
                   e = JsError name message /\ includes message "API quota" = true /\
                   App.error h = Some message /\ App.isQuotaError h = true) \/
               (App.isQuotaError h = false /\
                App.error h = Some "API key is invalid or lacks permissions.") \/
               (App.isQuotaError h = false /\
                App.error h = Some "Failed to process image with the AI model."))).
  { unfold h, Client.removeObjectFromFrame.
    destruct e as [name message|text].
    - destruct (includes message "API quota") eqn:MQ.
      + unfold App.handleRemoveLogo_settle. cbn [App.errorMessageOf]. rewrite MQ.
        split; [reflexivity | split; [reflexivity|]].
        left. exists name, message. repeat split. exact MQ.
      + destruct (includes message "403"); unfold App.handleRemoveLogo_settle;
          cbn; rewrite Q; repeat split; auto.
    - unfold App.handleRemoveLogo_settle. cbn. rewrite Q. repeat split; auto. }
  destruct H as [A [HF H]].
  destruct (committed_failure (App.mkSys s (Some (App.RemoveObject b sel)) t) h None A)
    as [A' [E' [Q' [_ [F' [_ V]]]]]].
  split; [exact A'|]. split; [reflexivity|]. split; [rewrite F'; exact HF|].
  destruct H as [[name [message [-> [MQ [E QQ]]]]]|[[QQ E]|[QQ E]]];
    rewrite QQ in V.
  - left. exists name, message. repeat split; [exact MQ | congruence | exact V].
  - right. left. rewrite V, E. reflexivity.
  - right. right. rewrite V, E. reflexivity.
Qed.

Lemma removal_failure_views_witness :
  App.renderContent
    (App.state (App.step Examples.removing (App.Settle (Err Examples.forbidden))))
  = App.ErrorPanel (Some "API key is invalid or lacks permissions.").
Proof.
  destruct (removal_failure_views Examples.upToRemoval (Some "AAAA")
              Examples.centered Examples.forbidden eq_refl eq_refl)
    as [_ [_ [_ [[name [message [E [M _]]]]|[V|V]]]]].
  - injection E as <- <-. vm_compute in M. discriminate.
  - exact V.
  - vm_compute in V. discriminate.
Defined.

(** X6: when the video generation fails, whatever was thrown and whatever
    came before, the application ends in [error] with a stored message
    that decides what is shown: the quota panel when the message has API
    quota or API key not found in it (so also for a 404 or NOT_FOUND
    failure, which is renamed that way); else the general panel, with one
    of two fixed messages or, for an [Error] that has one of the two
    markers in its class name and not in its message, with the message of
    that error as it is. The credential flag goes to false exactly for a
    message with API key not found. *)
Theorem video_failure_views :
  forall (evs : list App.Event) (b : option string) (e : Thrown),
    let sys := App.run evs App.initialSys in
    App.inFlight sys = Some (App.GenerateVideo b) ->
    let s' := App.state (App.step sys (App.Settle (Err e))) in
    App.appState s' = AppState.error /\
    exists m,
      App.error s' = Some m /\
      App.isApiKeySelected s'
      = (if includes m "API key not found" then Some false
         else App.isApiKeySelected (App.state sys)) /\
      (((includes m "API quota" = true \/ includes m "API key not found" = true) /\
        App.renderContent s' = App.QuotaErrorPanel) \/
       (m = "API key is invalid or lacks permissions for the Veo model." /\
        App.renderContent s' = App.ErrorPanel (Some m)) \/
       (m = "Failed to generate video with the AI model." /\
        App.renderContent s' = App.ErrorPanel (Some m)) \/
       ((exists name,
            e = JsError name m /\
            (includes name "API quota" = true \/
             includes name "API key not found" = true)) /\
        includes m "API quota" = false /\ includes m "API key not found" = false /\
        App.renderContent s' = App.ErrorPanel (Some m))).
Proof.
  intros evs b e sys F s'.
  assert (Q : App.isQuotaError (App.state sys) = false).
  { apply (run_flight_quota evs App.initialSys); [reflexivity|].
    fold sys. rewrite F. discriminate. }
  unfold s'. destruct sys as [s call t]. cbn [App.state App.inFlight] in *.
  subst call. cbn [App.step App.state App.inFlight].
  destruct (generateVideo_classes e) as [name [m [R C]]]. rewrite R.
  set (h := App.handleGenerateVideo_settle (Err (JsError name m)) s).
  destruct (handleGenerateVideo_settle_err (JsError name m) s) as [A [E _]].
  fold h in A, E. cbn [App.errorMessageOf] in E.
  destruct (committed_failure (App.mkSys s (Some (App.GenerateVideo b)) t) h None A)
    as [A' [E' [Q' [K' [_ [_ V]]]]]].
  split; [exact A'|]. exists m. split; [congruence|].
  assert (HQ : App.isQuotaError h
               = includes m "API quota" || includes m "API key not found").
  { unfold h, App.handleGenerateVideo_settle. cbn [App.errorMessageOf].
    destruct (includes m "API quota" || includes m "API key not found");
      destruct (includes m "API key not found"); cbn; auto. }
  assert (HK : App.isApiKeySelected h
               = if includes m "API key not found" then Some false
                 else App.isApiKeySelected s).
  { unfold h, App.handleGenerateVideo_settle. cbn [App.errorMessageOf].
    destruct (includes m "API quota" || includes m "API key not found");
      destruct (includes m "API key not found"); reflexivity. }
  split; [congruence|].
  rewrite HQ, E in V.
  destruct C as [C|[C|[C|[C1 [C2 C3]]]]].
  - left. rewrite C in V. split; [apply orb_true_iff, C | exact V].
  - right. left. subst m. split; [reflexivity | exact V].
  - right. right. left. subst m. split; [reflexivity | exact V].
  - right. right. right. rewrite C3 in V.
    apply orb_false_iff in C3. destruct C3 as [M1 M2].
    split; [exists name; split; [exact C1 | apply orb_true_iff, C2]|].
    split; [exact M1 | split; [exact M2 | exact V]].
Qed.

Lemma video_failure_views_witness :
  App.renderContent
    (App.state (App.step Examples.generating (App.Settle (Err Scenarios.notFound))))
  = App.QuotaErrorPanel /\
  App.isApiKeySelected
    (App.state (App.step Examples.generating (App.Settle (Err Scenarios.notFound))))
  = Some false.
Proof.
  destruct (video_failure_views
              (Examples.upToRemoval ++
               [App.Settle (Ok Examples.inpainted); App.ClickGenerateVideo])%list
              (Some "BBBB") Scenarios.notFound eq_refl)
    as [_ [m [E [K V]]]].
  vm_compute in E. injection E as <-. split.
  - destruct V as [[_ V]|[[V _]|[[V _]|[[name [V _]] _]]]];
      [exact V | discriminate V | discriminate V | discriminate V].
  - exact K.
Defined.

(** X7: when the operation fails three times with quota errors, the error
    [withRetry] throws goes through the [catch] of either operation as it
    is, and the application shows the quota panel with a stored message
    that tells that the quota is exceeded; the credential flag is left as
    it was. *)
Theorem quota_exhaustion_shows_quota_panel :
  forall (W : Type) (apiCall : W -> Outcome string * W)
         (w0 w1 w2 w3 : W) (e1 e2 e3 : Thrown) (evs : list App.Event),
    apiCall w0 = (Err e1, w1) -> Retry.isQuotaError (toString e1) = true ->
    apiCall w1 = (Err e2, w2) -> Retry.isQuotaError (toString e2) = true ->
    apiCall w2 = (Err e3, w3) -> Retry.isQuotaError (toString e3) = true ->
    forallb App.plainEvent evs = true ->
    let sys := App.run evs App.initialSys in
    let shown (serviceName : string) :=
      let s' := App.state (App.step sys
                  (App.Settle (fst (fst (Retry.withRetry apiCall serviceName w0))))) in
      App.appState s' = AppState.error /\
      App.renderContent s' = App.QuotaErrorPanel /\
      App.isApiKeySelected s' = App.isApiKeySelected (App.state sys) /\
      exists m, App.error s' = Some m /\
                includes m "exceeded your API quota" = true /\
                includes m serviceName = true in
    (forall b sel, App.inFlight sys = Some (App.RemoveObject b sel) ->
                   shown "image processing") /\
    (forall b, App.inFlight sys = Some (App.GenerateVideo b) ->
               shown "video generation").
Proof.
  intros W apiCall w0 w1 w2 w3 e1 e2 e3 evs C1 Q1 C2 Q2 C3 Q3 P sys shown.
  assert (R : forall serviceName,
             fst (fst (Retry.withRetry apiCall serviceName w0))
             = Err (Retry.quotaExceeded serviceName)).
  { intros serviceName. unfold Retry.withRetry.
    change (Z.to_nat Retry.MAX_RETRIES) with 3%nat.
    rewrite (withRetryFrom_retry _ _ _ _ _ _ _ _ _ _ C1 Q1) by (unfold Retry.MAX_RETRIES; lia).
    rewrite (withRetryFrom_retry _ _ _ _ _ _ _ _ _ _ C2 Q2) by (unfold Retry.MAX_RETRIES; lia).
    rewrite (withRetryFrom_last _ _ _ _ _ _ _ _ _ _ C3 Q3) by (unfold Retry.MAX_RETRIES; lia).
    reflexivity. }
  destruct (run_Invariant evs App.initialSys P Invariant_initial) as [_ [_ I]].
  fold sys in I.
  split.
  - intros b sel F. rewrite F in I. destruct I as [_ [Q _]].
    unfold shown. rewrite R. destruct sys as [s call t].
    cbn [App.state App.inFlight] in *. subst call.
    cbn [App.step App.state App.inFlight].
    set (h := App.handleRemoveLogo_settle
                (Client.removeObjectFromFrame
                   (Err (Retry.quotaExceeded "image processing"))) s).
    assert (A : App.appState h = AppState.error) by reflexivity.
    destruct (committed_failure (App.mkSys s (Some (App.RemoveObject b sel)) t) h None A)
      as [A' [E' [Q' [K' [_ [_ V]]]]]].
    split; [exact A'|]. split; [exact V|]. split; [exact K'|].
    eexists. split; [rewrite E'; reflexivity|]. split; vm_compute; reflexivity.
  - intros b F. rewrite F in I. destruct I as [_ [Q _]].
    unfold shown. rewrite R. destruct sys as [s call t].
    cbn [App.state App.inFlight] in *. subst call.
    cbn [App.step App.state App.inFlight].
    set (h := App.handleGenerateVideo_settle
                (Client.generateVideoFromFrame
                   (Err (Retry.quotaExceeded "video generation"))) s).
    assert (A : App.appState h = AppState.error) by reflexivity.
    destruct (committed_failure (App.mkSys s (Some (App.GenerateVideo b)) t) h None A)
      as [A' [E' [Q' [K' [_ [_ V]]]]]].
    split; [exact A'|]. split; [exact V|]. split; [exact K'|].
    eexists. split; [rewrite E'; reflexivity|]. split; vm_compute; reflexivity.
Qed.

Lemma quota_exhaustion_shows_quota_panel_witness :
  App.renderContent
    (App.state (App.step Examples.removing
       (App.Settle (fst (fst (Retry.withRetry Scenarios.busy "image processing" 0%nat))))))
  = App.QuotaErrorPanel.
Proof.
  destruct (quota_exhaustion_shows_quota_panel nat Scenarios.busy
              0%nat 1%nat 2%nat 3%nat
              Examples.quotaError Examples.quotaError Examples.quotaError
              Examples.upToRemoval
              eq_refl eq_refl eq_refl eq_refl eq_refl eq_refl eq_refl)
    as [H _].
  destruct (H (Some "AAAA") Examples.centered eq_refl) as [_ [V _]].
  exact V.
Defined.

(** ** The call of the inpainting operation *)

(** X8: the inpainting succeeds with the data of the first part of the
    first candidate and with nothing else. When the service answers and
    that part is missing or has no inline data (even if a later part has
    some), the call is made once, is not retried, and
    [removeObjectFromFrame] throws the general error. *)
Theorem inpaint_reads_first_part_only :
  forall (W : Type)
         (getImageDimensions : string -> W -> Outcome (Q * Q) * W)
         (generateContent : Inpaint.Request -> W -> Outcome Inpaint.Response * W)
         (base64Image : string) (selection : Position.Selection)
         (w w1 w2 : W) (width height : Q) (response : Inpaint.Response),
    getImageDimensions base64Image w = (Ok (width, height), w1) ->
    generateContent
      (Inpaint.requestFor base64Image
         (Position.getPositionalDescription selection width height)) w1
    = (Ok response, w2) ->
    let run := Inpaint.removeObjectFromFrameRun getImageDimensions generateContent
                 base64Image selection w in
    (forall part data,
        Inpaint.firstPart response = Some part ->
        Inpaint.inlineData part = Some data ->
        run = (Ok data, w2, [Retry.Attempt])) /\
    ((Inpaint.firstPart response = None \/
      exists part, Inpaint.firstPart response = Some part /\
                   Inpaint.inlineData part = None) ->
     run = (Err (newError "Failed to process image with the AI model."), w2,
            [Retry.Attempt])).
Proof.
  intros W gid gc base64Image selection w w1 w2 width height response D G run.
  unfold run, Inpaint.removeObjectFromFrameRun, Retry.withRetry.
  change (Z.to_nat Retry.MAX_RETRIES) with 3%nat.
  split.
  - intros part data FP ID.
    assert (C : Inpaint.inpaintCall gid gc base64Image selection w = (Ok data, w2)).
    { unfold Inpaint.inpaintCall. rewrite D, G, FP, ID. reflexivity. }
    rewrite (withRetryFrom_ok _ _ _ _ _ _ _ _ _ _ C). reflexivity.
  - intros H.
    assert (C : Inpaint.inpaintCall gid gc base64Image selection w
                = (Err Inpaint.noImageData, w2)).
    { unfold Inpaint.inpaintCall. rewrite D, G.
      destruct H as [FP|[part [FP ID]]]; rewrite FP; [|rewrite ID]; reflexivity. }
    rewrite (withRetryFrom_fatal _ _ _ _ _ _ _ _ _ _ C eq_refl). reflexivity.
Qed.

Lemma inpaint_reads_first_part_only_witness :
  Inpaint.removeObjectFromFrameRun Scenarios.measures Scenarios.answersTextFirst
    "AAAA" Examples.centered tt
  = (Err (newError "Failed to process image with the AI model."), tt,
     [Retry.Attempt]).
Proof.
  apply (proj2 (inpaint_reads_first_part_only unit Scenarios.measures
                  Scenarios.answersTextFirst "AAAA" Examples.centered
                  tt tt tt 1280%Q 720%Q Scenarios.textThenImage
                  eq_refl eq_refl)).
  right. eexists. split; reflexivity.
Defined.

(** ** The call of the video operation *)

Section AnimateFacts.
Import Animate.
Local Open Scope Z_scope.

Variable W : Type.
Variable getVideosOperation : Operation -> W -> Outcome Operation * W.

Lemma poll_pending k : forall operation w last w' fuel log,
  Pending getVideosOperation k operation w last w' ->
  done last = true -> (k <= fuel)%nat ->
  poll getVideosOperation fuel operation w log
  = Some (Ok last, w', (log ++ rounds k)%list).
Proof.
  induction k as [|k IH]; intros operation w last w' fuel log P D L;
    inversion P; subst.
  - destruct fuel; cbn [poll]; rewrite D; cbn [negb rounds];
      rewrite app_nil_r; reflexivity.
  - destruct fuel as [|fuel]; [lia|]. cbn [poll].
    match goal with H : done operation = false |- _ => rewrite H end.
    cbn [negb].
    match goal with H : getVideosOperation operation w = _ |- _ => rewrite H end.
    rewrite (IH _ _ _ _ fuel _ ltac:(eassumption) D ltac:(lia)).
    rewrite <- app_assoc. reflexivity.
Qed.

Lemma poll_never_done fuel : forall operation w log,
  (forall op0 w0, exists op1 w1,
      getVideosOperation op0 w0 = (Ok op1, w1) /\ done op1 = false) ->
  done operation = false ->
  poll getVideosOperation fuel operation w log = None.
Proof.
  induction fuel as [|fuel IH]; intros operation w log N D; cbn [poll];
    rewrite D; cbn [negb]; [reflexivity|].
  destruct (N operation w) as [op1 [w1 [E D1]]]. rewrite E.
  apply IH; assumption.
Qed.

End AnimateFacts.

(** X9: the loop that waits for the video asks for the status once every
    10 seconds until the operation is done: when the service answers [k]
    times before it leaves a done operation, the loop ends with that
    operation after exactly [k] waits of 10000 ms, each followed by a
    look; and when the service never answers with a done operation the
    loop is still polling after any number of rounds. *)
Theorem poll_until_done :
  forall (W : Type)
         (getVideosOperation : Animate.Operation -> W -> Outcome Animate.Operation * W),
    (forall k operation w last w' fuel log,
        Animate.Pending getVideosOperation k operation w last w' ->
        Animate.done last = true -> (k <= fuel)%nat ->
        Animate.poll getVideosOperation fuel operation w log
        = Some (Ok last, w', (log ++ Animate.rounds k)%list)) /\
    ((forall op0 w0, exists op1 w1,
         getVideosOperation op0 w0 = (Ok op1, w1) /\ Animate.done op1 = false) ->
     forall fuel operation w log,
       Animate.done operation = false ->
       Animate.poll getVideosOperation fuel operation w log = None).
Proof.
  intros W getVideosOperation. split.
  - intros k. apply poll_pending.
  - intros N fuel operation w log D. apply poll_never_done; assumption.
Qed.

Lemma poll_until_done_witness :
  Animate.poll Scenarios.slowVideo 10 Scenarios.started 0%nat []
  = Some (Ok Scenarios.finished, 3%nat,
          [Animate.Wait 10000; Animate.AskStatus;
           Animate.Wait 10000; Animate.AskStatus;
           Animate.Wait 10000; Animate.AskStatus]).
Proof.
  apply (proj1 (poll_until_done nat Scenarios.slowVideo) 3%nat
           Scenarios.started 0%nat Scenarios.finished 3%nat 10%nat []).
  - eapply Animate.PendingLater; [reflexivity | reflexivity|].
    eapply Animate.PendingLater; [reflexivity | reflexivity|].
    eapply Animate.PendingLater; [reflexivity | reflexivity|].
    apply Animate.PendingNow.
  - reflexivity.
  - repeat constructor.
Defined.

Section AnimateLog.
Import Animate.
Local Open Scope Z_scope.

Variable W : Type.
Variable getImageDimensions : string -> W -> Outcome (Q * Q) * W.
Variable generateVideos : Request -> W -> Outcome Operation * W.
Variable getVideosOperation : Operation -> W -> Outcome Operation * W.
Variable fetch : string -> W -> Outcome FetchResponse * W.
Variable apiKey : string.

Lemma rounds_snoc k : (rounds k ++ [Wait 10000; AskStatus])%list = rounds (S k).
Proof.
  induction k as [|k IH]; [reflexivity|].
  cbn [rounds app]. cbn [rounds] in IH. rewrite IH. reflexivity.
Qed.

(** The loop only adds rounds, and ends well only on a done operation. *)
Lemma poll_log fuel : forall operation w log r w' log',
  poll getVideosOperation fuel operation w log = Some (r, w', log') ->
  exists k, log' = (log ++ rounds k)%list /\
            (forall last, r = Ok last -> done last = true).
Proof.
  induction fuel as [|fuel IH]; intros operation w log r w' log' H;
    cbn [poll] in H; destruct (done operation) eqn:D; cbn [negb] in H;
    try discriminate;
    try (injection H as <- <- <-; exists 0%nat; rewrite app_nil_r;
         split; [reflexivity | intros last E; injection E as <-; exact D]).
  destruct (getVideosOperation operation w) as [[operation1|e] w1].
  - destruct (IH _ _ _ _ _ _ H) as [k [E L]].
    exists (S k). rewrite E, <- app_assoc. split; [reflexivity | exact L].
  - injection H as <- <- <-. exists 1%nat. split; [reflexivity|].
    intros last E. discriminate.
Qed.

(** The part after the loop downloads at most once, from the link of the
    operation with the key appended, and returns a URL only after it. *)
Lemma download_log operation w log r w' log' :
  download fetch apiKey operation w log = (r, w', log') ->
  (log' = log /\ r = Err noDownloadLink) \/
  (exists link, uri operation = Some link /\
                log' = (log ++ [Download (link ++ "&key=" ++ apiKey)])%list).
Proof.
  unfold download. destruct (uri operation) as [link|];
    [|intros H; injection H as <- <- <-; left; split; reflexivity].
  destruct (truthy (Some link));
    [|intros H; injection H as <- <- <-; left; split; reflexivity].
  destruct (fetch (link ++ "&key=" ++ apiKey) w) as [[response|e] w1].
  - destruct (Client.downloadFailure _ _ _); intros H; injection H as <- <- <-;
      right; exists link; split; reflexivity.
  - intros H; injection H as <- <- <-. right. exists link. split; reflexivity.
Qed.

End AnimateLog.

(** X10: what one call of the video operation does, whenever it ends: if
    the image cannot be measured, nothing; otherwise one request, for 16:9
    or 9:16, then rounds of waiting and asking for the status, then at most
    one download. A URL is returned only after the download, and the
    download is made only from the link of a done operation, with the key
    appended. *)
Theorem animateCall_log :
  forall (W : Type)
         (getImageDimensions : string -> W -> Outcome (Q * Q) * W)
         (generateVideos : Animate.Request -> W -> Outcome Animate.Operation * W)
         (getVideosOperation : Animate.Operation -> W -> Outcome Animate.Operation * W)
         (fetch : string -> W -> Outcome Animate.FetchResponse * W)
         (apiKey : string) (fuel : nat) (base64Image : string) (w w' : W)
         (log log' : list Animate.Action) (r : Outcome string),
    Animate.animateCall getImageDimensions generateVideos getVideosOperation
      fetch apiKey fuel base64Image w log = Some (r, w', log') ->
    (log' = log /\ exists e, r = Err e) \/
    (exists ratio k tail,
        (ratio = "16:9" \/ ratio = "9:16") /\
        log' = (log ++ Animate.Generate (Animate.requestFor base64Image ratio)
                    :: Animate.rounds k ++ tail)%list /\
        (tail = [] /\ (exists e, r = Err e) \/
         exists link, tail = [Animate.Download (link ++ "&key=" ++ apiKey)])).
Proof.
  intros W gid gv gvo fetch apiKey fuel base64Image w w' log log' r.
  unfold Animate.animateCall.
  destruct (gid base64Image w) as [[[width height]|e] w1].
  2:{ intros H. injection H as <- <- <-. left. split; [reflexivity | eauto]. }
  set (ratio := if Position.ltb height width then "16:9" else "9:16").
  assert (HR : ratio = "16:9" \/ ratio = "9:16")
    by (unfold ratio; destruct (Position.ltb height width); auto).
  cbv zeta.
  destruct (gv (Animate.requestFor base64Image ratio) w1) as [[operation|e] w2].
  2:{ intros H. injection H as <- <- <-. right. exists ratio, 0%nat, [].
      split; [exact HR|]. split; [reflexivity|]. left. eauto. }
  destruct (Animate.poll gvo fuel operation w2
              (log ++ [Animate.Generate (Animate.requestFor base64Image ratio)]))
    as [[[[last|e] w3] log2]|] eqn:P; [| |discriminate].
  - destruct (poll_log _ _ _ _ _ _ _ _ _ P) as [k [E _]].
    intros H. injection H as H.
    destruct (download_log _ _ _ _ _ _ _ _ _ H) as [[-> ->]|[link [_ ->]]];
      right; exists ratio, k.
    + exists []. split; [exact HR|]. rewrite E, <- app_assoc, app_nil_r.
      split; [reflexivity|]. left. eauto.
    + eexists. split; [exact HR|]. rewrite E, <- !app_assoc.
      split; [reflexivity|]. right. eauto.
  - destruct (poll_log _ _ _ _ _ _ _ _ _ P) as [k [E _]].
    intros H. injection H as <- <- <-. right. exists ratio, k, [].
    split; [exact HR|]. rewrite E, <- app_assoc, app_nil_r.
    split; [reflexivity|]. left. eauto.
Qed.

Lemma animateCall_log_witness :
  exists ratio k tail,
    (ratio = "16:9" \/ ratio = "9:16") /\
    [ Animate.Generate (Animate.requestFor "BBBB" "16:9");
      Animate.Wait 10000; Animate.AskStatus;
      Animate.Wait 10000; Animate.AskStatus;
      Animate.Wait 10000; Animate.AskStatus;
      Animate.Download "https://video.example/v1?alt=media&key=KEY" ]
    = ([] ++ Animate.Generate (Animate.requestFor "BBBB" ratio)
          :: Animate.rounds k ++ tail)%list /\
    (tail = [] /\ (exists e, @Ok string "blob:video-1" = Err e) \/
     exists link, tail = [Animate.Download (link ++ "&key=" ++ "KEY")]).
Proof.
  destruct (animateCall_log nat Scenarios.measuresWide Scenarios.startsVideo
              Scenarios.slowVideo Scenarios.downloads "KEY" 10 "BBBB"
              0%nat 3%nat [] _ (Ok "blob:video-1") eq_refl) as [[E _]|H].
  - discriminate E.
  - exact H.
Defined.

(** ** The download of the video *)

Section DownloadStatus.
Import Text.





End DownloadStatus.



(** ** The selection canvas *)

Section Drag.
Import FrameSelector.
Local Open Scope Q_scope.

Lemma min_plus_abs (a b : Q) : Qmin a b + Qabs (b - a) == Qmax a b.
Proof.
  destruct (Qlt_le_dec b a) as [L|L].
  - rewrite (Q.min_r a b) by (apply Qlt_le_weak, L).
    rewrite (Q.max_l a b) by (apply Qlt_le_weak, L).
    rewrite Qabs_neg by lra. lra.
  - rewrite (Q.min_l a b) by exact L.
    rewrite (Q.max_r a b) by exact L.
    rewrite Qabs_pos by lra. lra.
Qed.

(** Moves while the button is held keep the state and leave the rectangle
    of the last one. *)
Lemma gesture_moves (start : Point) (ps : list Point) :
  forall (ms : list Mouse) (sel : option Position.Selection),
    gesture (map MouseMove ps ++ ms)
            {| isDrawing := true; startPoint := Some start |} sel
    = gesture ms {| isDrawing := true; startPoint := Some start |}
        (match rev ps with
         | p :: _ => Some (newSelection start p)
         | [] => sel
         end).
Proof.
  induction ps as [|p ps IH]; intros ms sel; [reflexivity|].
  cbn [map app gesture handle handleMouseMove startPoint isDrawing negb].
  rewrite IH. cbn [rev].
  destruct (rev ps) as [|q qs]; reflexivity.
Qed.

(** After the release nothing but a press changes anything. *)
Lemma gesture_released (after : list Mouse) :
  forallb notPress after = true ->
  forall sel, gesture after initial sel = (initial, sel).
Proof.
  induction after as [|m after IH]; intros N sel; [reflexivity|].
  cbn [forallb] in N. apply andb_true_iff in N. destruct N as [M N].
  destruct m as [q|q| |]; [discriminate M|..];
    cbn [gesture handle handleMouseMove handleMouseUp startPoint initial];
    apply IH, N.
Qed.

Lemma handle_release (m : Mouse) (l : Local) :
  isRelease m = true -> handle m l = (initial, None).
Proof. destruct m; try discriminate; reflexivity. Qed.

(** The far corner is off the greater coordinate by the rounding of the
    difference at most. *)
Lemma min_plus_rounded (a b : Q) :
  Qabs (Qmin a b + Qabs (Double.sub b a) - Qmax a b)
  <= Qabs (b - a) * (1 # 9007199254740992).
Proof.
  unfold Double.sub. pose proof (fl_abs (b - a)) as F.
  pose proof (min_plus_abs a b) as M.
  set (d := Qabs (b - a)) in *. set (r := Qabs (Double.fl (b - a))) in *.
  set (lo := Qmin a b) in *. set (hi := Qmax a b) in *.
  apply Qabs_Qle_condition. lra.
Qed.

(** What the rounding leaves of the comparison with 5. *)
Lemma rounded_below (d : Q) :
  Qabs d < 5 - roundingBand -> Qabs (Double.fl d) < 5.
Proof.
  unfold roundingBand. intros H. pose proof (fl_abs d) as F.
  pose proof (Qabs_nonneg d) as N.
  set (a := Qabs d) in *. set (r := Qabs (Double.fl d)) in *. lra.
Qed.

Lemma rounded_above (d : Q) :
  5 + roundingBand <= Qabs d -> 5 <= Qabs (Double.fl d).
Proof.
  unfold roundingBand. intros H. pose proof (fl_abs d) as F.
  set (a := Qabs d) in *. set (r := Qabs (Double.fl d)) in *. lra.
Qed.

End Drag.

(** X12: a drag, that is a press, moves and a release, inside the frame or
    by leaving it, leaves the rectangle that the last move made of the
    point of the press and of its own point, whatever the path in between
    and whatever follows the release short of a new press. Its corner is
    the least of the two points both ways and its width and height are
    not negative. The two points are opposite corners of it up to the
    rounding of the difference of their coordinates, 2^-53 of the
    distance at most, and exactly so where the difference is computed
    without rounding. *)
Theorem drag_leaves_rectangle :
  forall (start p : FrameSelector.Point) (ps : list FrameSelector.Point)
         (release : FrameSelector.Mouse) (after : list FrameSelector.Mouse)
         (l : FrameSelector.Local) (sel0 : option Position.Selection),
    FrameSelector.isRelease release = true ->
    forallb FrameSelector.notPress after = true ->
    let sel := FrameSelector.newSelection start p in
    FrameSelector.gesture
      (FrameSelector.MouseDown start
         :: map FrameSelector.MouseMove (ps ++ [p])
         ++ release :: after) l sel0
    = (FrameSelector.initial, Some sel) /\
    (0 <= Position.width sel /\ 0 <= Position.height sel /\
     Position.x sel == Qmin (FrameSelector.px start) (FrameSelector.px p) /\
     Position.y sel == Qmin (FrameSelector.py start) (FrameSelector.py p) /\
     Qabs (Position.x sel + Position.width sel
           - Qmax (FrameSelector.px start) (FrameSelector.px p))
     <= Qabs (FrameSelector.px p - FrameSelector.px start) * (1 # 9007199254740992) /\
     Qabs (Position.y sel + Position.height sel
           - Qmax (FrameSelector.py start) (FrameSelector.py p))
     <= Qabs (FrameSelector.py p - FrameSelector.py start) * (1 # 9007199254740992) /\
     (Double.representable (FrameSelector.px p - FrameSelector.px start) ->
      Position.x sel + Position.width sel
      == Qmax (FrameSelector.px start) (FrameSelector.px p)) /\
     (Double.representable (FrameSelector.py p - FrameSelector.py start) ->
      Position.y sel + Position.height sel
      == Qmax (FrameSelector.py start) (FrameSelector.py p)))%Q.
Proof.
  intros start p ps release after l sel0 R N sel. split.
  - cbn [FrameSelector.gesture FrameSelector.handle FrameSelector.handleMouseDown].
    rewrite gesture_moves, rev_app_distr. cbn [rev app].
    cbn [FrameSelector.gesture]. rewrite (handle_release _ _ R).
    apply gesture_released, N.
  - unfold sel, FrameSelector.newSelection.
    cbn [Position.x Position.y Position.width Position.height].
    split; [apply Qabs_nonneg|]. split; [apply Qabs_nonneg|].
    split; [reflexivity|]. split; [reflexivity|].
    split; [apply min_plus_rounded|]. split; [apply min_plus_rounded|].
    unfold Double.representable, Double.sub.
    split; intros E; rewrite E; apply min_plus_abs.
Qed.

Lemma drag_leaves_rectangle_witness :
  FrameSelector.gesture
    (FrameSelector.MouseDown Scenarios.pressAt
       :: map FrameSelector.MouseMove ([Scenarios.passBy] ++ [Scenarios.endAt])
       ++ FrameSelector.MouseLeave
       :: [FrameSelector.MouseMove Scenarios.passBy; FrameSelector.MouseUp])
    FrameSelector.initial None
  = (FrameSelector.initial,
     Some (FrameSelector.newSelection Scenarios.pressAt Scenarios.endAt)) /\
  (Position.x (FrameSelector.newSelection Scenarios.pressAt Scenarios.endAt)
   + Position.width (FrameSelector.newSelection Scenarios.pressAt Scenarios.endAt)
   == Qmax (FrameSelector.px Scenarios.pressAt) (FrameSelector.px Scenarios.endAt))%Q.
Proof.
  destruct (drag_leaves_rectangle Scenarios.pressAt Scenarios.endAt
              [Scenarios.passBy] FrameSelector.MouseLeave
              [FrameSelector.MouseMove Scenarios.passBy; FrameSelector.MouseUp]
              FrameSelector.initial None eq_refl eq_refl)
    as [G [_ [_ [_ [_ [_ [_ [X _]]]]]]]].
  split; [exact G|]. apply X. vm_compute. reflexivity.
Defined.

(** X13: after a drag the button that confirms the removal is disabled
    exactly when the width or the height the code computes, the distance
    from the press to the last point rounded to a double, is below 5. So
    it is disabled when the pointer ended less than 5 - 2^-50 pixels from
    the press horizontally or vertically, and enabled when it ended 5 +
    2^-50 pixels or more from it both ways; where the two distances are
    computed without rounding, it is disabled exactly when one of them is
    below 5. After a click without a move the button is disabled. *)
Theorem remove_button_after_drag :
  forall (start p : FrameSelector.Point) (l : FrameSelector.Local)
         (sel0 : option Position.Selection),
    let dx := (FrameSelector.px p - FrameSelector.px start)%Q in
    let dy := (FrameSelector.py p - FrameSelector.py start)%Q in
    let disabled := App.removeDisabled (Some (FrameSelector.newSelection start p)) in
    (disabled = true <->
     (Qabs (Double.sub (FrameSelector.px p) (FrameSelector.px start)) < 5 \/
      Qabs (Double.sub (FrameSelector.py p) (FrameSelector.py start)) < 5)%Q) /\
    ((Qabs dx < 5 - FrameSelector.roundingBand \/
      Qabs dy < 5 - FrameSelector.roundingBand)%Q ->
     disabled = true) /\
    ((5 + FrameSelector.roundingBand <= Qabs dx)%Q ->
     (5 + FrameSelector.roundingBand <= Qabs dy)%Q ->
     disabled = false) /\
    (Double.representable dx -> Double.representable dy ->
     (disabled = true <-> (Qabs dx < 5 \/ Qabs dy < 5)%Q)) /\
    App.removeDisabled
      (snd (FrameSelector.gesture
              [FrameSelector.MouseDown start; FrameSelector.MouseUp] l sel0))
    = true.
Proof.
  intros start p l sel0 dx dy disabled.
  assert (K : disabled = true <->
              (Qabs (Double.sub (FrameSelector.px p) (FrameSelector.px start)) < 5 \/
               Qabs (Double.sub (FrameSelector.py p) (FrameSelector.py start)) < 5)%Q).
  { unfold disabled, App.removeDisabled, FrameSelector.newSelection.
    cbn [Position.width Position.height]. rewrite orb_true_iff. split.
    - intros [H|H]; [left|right]; apply ltb_true, H.
    - intros [H|H]; [left|right]; apply ltb_complete, H. }
  split; [exact K|]. split; [|split; [|split; [|reflexivity]]].
  - intros [H|H]; apply K; [left|right]; exact (rounded_below _ H).
  - intros HX HY. destruct disabled eqn:D; [|reflexivity].
    destruct (proj1 K eq_refl) as [H|H]; exfalso.
    + apply (Qlt_not_le _ _ H). exact (rounded_above _ HX).
    + apply (Qlt_not_le _ _ H). exact (rounded_above _ HY).
  - unfold Double.representable, Double.sub in *. intros EX EY.
    fold dx dy in K. rewrite K, EX, EY. reflexivity.
Qed.

Lemma remove_button_after_drag_witness :
  App.removeDisabled
    (Some (FrameSelector.newSelection Scenarios.pressAt Scenarios.endAt)) = false /\
  (App.removeDisabled
     (Some (FrameSelector.newSelection Scenarios.pressAt Scenarios.passBy)) = true <->
   (Qabs (FrameSelector.px Scenarios.passBy - FrameSelector.px Scenarios.pressAt) < 5 \/
    Qabs (FrameSelector.py Scenarios.passBy - FrameSelector.py Scenarios.pressAt) < 5)%Q).
Proof.
  split.
  - apply (proj1 (proj2 (proj2 (remove_button_after_drag
                                  Scenarios.pressAt Scenarios.endAt
                                  FrameSelector.initial None))));
      vm_compute; discriminate.
  - apply (proj1 (proj2 (proj2 (proj2 (remove_button_after_drag
                                  Scenarios.pressAt Scenarios.passBy
                                  FrameSelector.initial None)))));
      vm_compute; reflexivity.
Defined.

(** ** The shape of the application all along a run *)

Section AppShapeFacts.
Import App AppShape.
Local Open Scope Z_scope.

Lemma AppState_eqb_eq (a b : AppState.t) : AppState.eqb a b = true <-> a = b.
Proof. destruct a, b; cbn; split; (reflexivity || discriminate). Qed.

(** The two ways a commit goes. *)
Lemma commit_cases sys h call :
  (appState h = appState (state sys) /\
   commit sys h call = mkSys h call (timers sys)) \/
  (appState h <> appState (state sys) /\
   commit sys h call
   = mkSys (h |> setProgress 0) call
       (match appState h with
        | AppState.processing => progressSchedule
        | _ => []
        end)).
Proof.
  unfold commit, progressEffect.
  destruct (AppState.eqb (appState (state sys)) (appState h)) eqn:E.
  - left. apply AppState_eqb_eq in E. split; [congruence | reflexivity].
  - right. split.
    + intros C. rewrite C in E.
      assert (T : AppState.eqb (appState (state sys)) (appState (state sys)) = true)
        by (apply AppState_eqb_eq; reflexivity).
      congruence.
    + destruct (appState h); reflexivity.
Qed.

Lemma Shape_commit sys h call :
  Shape sys -> Core h call ->
  (appState h = appState (state sys) -> progress h = progress (state sys)) ->
  Shape (commit sys h call).
Proof.
  intros [_ S] C P. destruct (commit_cases sys h call) as [[A ->]|[A ->]].
  - split; [exact C|]. unfold Staged in *. cbn [state timers].
    rewrite A, (P A). exact S.
  - split; [exact C|]. unfold Staged. cbn [state timers].
    change (appState (h |> setProgress 0)) with (appState h).
    destruct (appState h); cbn; auto.
Qed.

Lemma view_states (s : State) :
  match renderContent s with
  | FileUploaderView => appState s = AppState.idle
  | FrameSelectorView src _ =>
      appState s = AppState.video_loaded /\ truthy (frameSrc s) = true
  | LoaderView _ _ =>
      appState s = AppState.processing \/ appState s = AppState.generating_video
  | ResultDisplayView _ _ url _ =>
      (appState s = AppState.complete /\ url = None) \/
      (appState s = AppState.video_complete /\ truthy url = true)
  | QuotaErrorPanel | ErrorPanel _ => appState s = AppState.error
  | Blank => True
  end.
Proof.
  unfold renderContent. destruct (appState s); auto.
  - destruct (frameSrc s) as [src|]; [|exact I].
    destruct (truthy (Some src)) eqn:T; [auto | exact I].
  - destruct (frameSrc s) as [src|]; [|exact I].
    destruct (processedImageSrc s) as [img|]; [|exact I].
    destruct (truthy (Some src) && truthy (Some img)); [auto | exact I].
  - destruct (frameSrc s) as [src|]; [|exact I].
    destruct (processedImageSrc s) as [img|]; [|exact I].
    destruct (processedVideoUrl s) as [url|]; [|exact I].
    destruct (truthy (Some src) && truthy (Some img) && truthy (Some url)) eqn:T;
      [|exact I].
    right. split; [reflexivity|].
    apply andb_true_iff in T. destruct T as [_ T]. exact T.
  - destruct (isQuotaError s); reflexivity.
Qed.

(** With a call in flight the state is one of the two with a loader. *)
Lemma Core_in_flight s c :
  Core s (Some c) ->
  appState s = AppState.processing \/ appState s = AppState.generating_video.
Proof.
  intros [H _]. destruct c; [left; exact H | left; apply H | right; apply H].
Qed.

Lemma Core_idle_call s call :
  Core s call ->
  appState s <> AppState.processing -> appState s <> AppState.generating_video ->
  call = None.
Proof.
  intros C P G. destruct call as [c|]; [|reflexivity].
  destruct (Core_in_flight _ _ C); contradiction.
Qed.

End AppShapeFacts.

Section AppShapeSteps.
Import App AppShape.
Local Open Scope Z_scope.

Lemma removeObject_err_is_err e :
  exists e', Client.removeObjectFromFrame (Err e) = Err e'.
Proof.
  unfold Client.removeObjectFromFrame. destruct e as [name message|text];
    [destruct (includes message "API quota");
       [|destruct (includes message "403")]|]; eauto.
Qed.

Lemma generateVideo_err_is_err e :
  exists e', Client.generateVideoFromFrame (Err e) = Err e'.
Proof.
  unfold Client.generateVideoFromFrame.
  repeat match goal with
         | |- context [if ?c then _ else _] => destruct c
         end; eauto.
Qed.

(** A failed operation of the client touches neither the artifacts nor the
    progress but to put it back to 0. *)
Lemma handleRemoveLogo_settle_err_fields e s :
  let h := handleRemoveLogo_settle (Err e) s in
  appState h = AppState.error /\ frameSrc h = frameSrc s /\
  processedImageSrc h = processedImageSrc s /\
  processedVideoUrl h = processedVideoUrl s.
Proof.
  unfold handleRemoveLogo_settle.
  destruct (includes (errorMessageOf e) "API quota"); cbn; auto.
Qed.

Lemma handleGenerateVideo_settle_err_fields e s :
  let h := handleGenerateVideo_settle (Err e) s in
  appState h = AppState.error /\ frameSrc h = frameSrc s /\
  processedImageSrc h = processedImageSrc s /\
  processedVideoUrl h = processedVideoUrl s /\ progress h = progress s.
Proof.
  unfold handleGenerateVideo_settle.
  destruct (includes (errorMessageOf e) "API quota"
            || includes (errorMessageOf e) "API key not found");
    destruct (includes (errorMessageOf e) "API key not found"); cbn; auto.
Qed.

Lemma stage_advances (progress p : Z) (rest : list Z) :
  In (progress, p :: rest) stages -> In (p, rest) stages.
Proof.
  unfold stages. cbn [In].
  intros [E|[E|[E|[E|[E|[]]]]]]; inversion E; subst; auto 10.
Qed.

(** Every event keeps the shape. *)
Lemma step_Shape sys ev :
  solidEvent ev = true -> Shape sys -> Shape (step sys ev).
Proof.
  intros SE S. pose proof S as [C ST].
  destruct sys as [s call t]. cbn [state inFlight timers] in C, ST.
  pose proof C as [CF [CQ [K1 [K2 K3]]]].
  pose proof (view_states s) as V.
  destruct ev as [a|file|sel| | | |a|r| ]; cbn [step state inFlight timers].
  - (* the check on mount *)
    apply Shape_commit; [exact S | destruct a; exact C | destruct a; reflexivity].
  - (* a file is chosen *)
    destruct (renderContent s); try exact S.
    destruct (startsWith (fileType file) "video/"); [|exact S].
    apply Shape_commit; [exact S | | cbn [state]; intros E; cbn in E; congruence].
    split; [reflexivity|]. split; [discriminate|].
    split; [exact K1 | split; [exact K2 | exact Logic.I]].
  - (* the rectangle is drawn *)
    destruct (renderContent s); try exact S.
    apply Shape_commit; [exact S | exact C | reflexivity].
  - (* the removal is confirmed *)
    destruct (renderContent s) as [|src sel0|m p|o pi pv k| |er| ]; try exact S.
    destruct (removeDisabled sel0); [exact S|].
    destruct (handleRemoveLogo_start s) as [[h c]|] eqn:St; [|exact S].
    apply handleRemoveLogo_start_some in St.
    destruct St as [F [-> [b [sel ->]]]]. destruct V as [A _].
    apply Shape_commit; [exact S | | cbn [state]; intros E; cbn in E; congruence].
    split; [split; [reflexivity | exact F]|]. split; [discriminate|].
    split; [exact K1 | split; [exact K2 | exact Logic.I]].
  - (* a video is asked for *)
    destruct (renderContent s) as [|src sel0|m p|o pi pv k| |er| ];
      cbn [offersGenerateVideo]; try exact S.
    destruct (negb (truthy pv) && match k with Some true => true | _ => false end);
      [|exact S].
    destruct (handleGenerateVideo_start s) as [[h c]|] eqn:St; [|exact S].
    apply handleGenerateVideo_start_some in St.
    destruct St as [F [-> [b ->]]].
    apply Shape_commit; [exact S | |].
    + split; [split; [reflexivity | exact F]|]. split; [discriminate|].
      split; [exact K1 | split; [exact K2 | exact Logic.I]].
    + cbn [state]. intros E. cbn in E.
      destruct V as [[A _]|[A _]]; congruence.
  - (* start over *)
    destruct (offersReset (renderContent s)) eqn:O; [|exact S].
    apply offersReset_states in O.
    assert (call = None) as ->.
    { apply (Core_idle_call s); [exact C| |];
        intros E; destruct O as [O|[O|O]]; congruence. }
    apply Shape_commit; [exact S | |].
    + destruct s. vm_compute. repeat split; discriminate.
    + cbn [state]. intros E. exfalso.
      assert (I : appState (handleReset s) = AppState.idle)
        by (destruct s; reflexivity).
      destruct O as [O|[O|O]]; congruence.
  - (* the credential is changed *)
    apply Shape_commit; [exact S | |].
    + destruct a as [hasKey|]; [|exact C]. unfold handleChangeApiKey.
      destruct hasKey; [|exact C].
      destruct (Bool.bool_dec (isQuotaError s) true) as [Q|Q].
      * rewrite Q. cbn [andb].
        assert (call = None) as ->.
        { apply (Core_idle_call s); [exact C| |]; rewrite (CQ Q); discriminate. }
        destruct (Bool.bool_dec (truthy (processedImageSrc s)) true) as [TP|TP];
          [rewrite TP
          |apply not_true_is_false in TP; rewrite TP;
           destruct (Bool.bool_dec (truthy (frameSrc s)) true) as [TF|TF];
           [rewrite TF | apply not_true_is_false in TF; rewrite TF]].
        -- split; [split; discriminate|]. split; [discriminate|].
           split; [exact K1 | split; [exact K2 | exact TP]].
        -- split; [split; discriminate|]. split; [discriminate|].
           split; [exact K1 | split; [exact K2 | exact TF]].
        -- split; [exact CF|]. split; [discriminate|].
           split; [exact K1 | split; [exact K2|]].
           cbn. rewrite (CQ Q). exact Logic.I.
      * apply not_true_is_false in Q. rewrite Q. exact C.
    + cbn [state]. intros _. destruct a as [hasKey|]; [|reflexivity].
      unfold handleChangeApiKey.
      destruct (hasKey && isQuotaError s); [|reflexivity].
      destruct (truthy (processedImageSrc s));
        [|destruct (truthy (frameSrc s))]; reflexivity.
  - (* the call in flight settles *)
    destruct call as [[file|b sel|b]|]; [| | |exact S].
    + (* the frame extraction *)
      assert (Q : isQuotaError s = true -> False)
        by (intros Q; rewrite (CQ Q) in CF; discriminate).
      apply Shape_commit; [exact S | |].
      * destruct r as [url|e].
        -- cbn [solidEvent] in SE.
           split; [split; discriminate|]. split; [intros QQ; elim (Q QQ)|].
           split; [intros _; exact SE | split; [exact K2 | exact SE]].
        -- split; [split; discriminate|]. split; [reflexivity|].
           split; [exact K1 | split; [exact K2 | exact Logic.I]].
      * cbn [state]. intros E. exfalso. rewrite CF in E.
        destruct r; discriminate E.
    + (* the removal *)
      destruct CF as [A F].
      assert (Q : isQuotaError s = true -> False)
        by (intros Q; rewrite (CQ Q) in A; discriminate).
      apply Shape_commit; [exact S | |].
      * destruct r as [v|e].
        -- split; [split; discriminate|]. split; [intros QQ; elim (Q QQ)|].
           split; [intros _; exact F | split; [intros _; reflexivity | reflexivity]].
        -- destruct (removeObject_err_is_err e) as [e' ->].
           destruct (handleRemoveLogo_settle_err_fields e' s) as [A' [F' [P' U']]].
           split; [rewrite A'; split; discriminate|].
           split; [intros _; exact A'|].
           unfold Consistent. rewrite A', F', P', U'.
           split; [exact K1 | split; [exact K2 | exact Logic.I]].
      * cbn [state]. intros E. exfalso. rewrite A in E.
        destruct r as [v|e]; [discriminate E|].
        destruct (removeObject_err_is_err e) as [e' R]. rewrite R in E.
        destruct (handleRemoveLogo_settle_err_fields e' s) as [A' _].
        congruence.
    + (* the video generation *)
      destruct CF as [A F].
      assert (Q : isQuotaError s = true -> False)
        by (intros Q; rewrite (CQ Q) in A; discriminate).
      apply Shape_commit; [exact S | |].
      * destruct r as [v|e].
        -- cbn [solidEvent] in SE.
           split; [split; discriminate|]. split; [intros QQ; elim (Q QQ)|].
           split; [exact K1 | split; [intros _; exact F | exact SE]].
        -- destruct (generateVideo_err_is_err e) as [e' ->].
           destruct (handleGenerateVideo_settle_err_fields e' s)
             as [A' [F' [P' [U' _]]]].
           split; [rewrite A'; split; discriminate|].
           split; [intros _; exact A'|].
           unfold Consistent. rewrite A', F', P', U'.
           split; [exact K1 | split; [exact K2 | exact Logic.I]].
      * cbn [state]. intros E. exfalso. rewrite A in E.
        destruct r as [v|e]; [discriminate E|].
        destruct (generateVideo_err_is_err e) as [e' R]. rewrite R in E.
        destruct (handleGenerateVideo_settle_err_fields e' s) as [A' _].
        congruence.
  - (* a timer of the progress fires *)
    destruct t as [|p rest]; [exact S|].
    split; [exact C|]. unfold Staged in *. cbn [state timers].
    change (appState (s |> setProgress p)) with (appState s).
    destruct (appState s); try (destruct ST; discriminate).
    exact (stage_advances _ _ _ ST).
Qed.

Lemma Shape_initial : Shape initialSys.
Proof. repeat split; discriminate. Qed.

Lemma run_Shape evs : forall sys,
  forallb solidEvent evs = true -> Shape sys -> Shape (run evs sys).
Proof.
  induction evs as [|ev evs IH]; intros sys P S; [exact S|].
  cbn [forallb] in P. apply andb_true_iff in P. destruct P as [P Ps].
  cbn [run fold_left]. apply (IH (step sys ev) Ps), step_Shape; assumption.
Qed.

End AppShapeSteps.

(** X14: all along a run the loader is on the screen exactly while a call
    is in flight, and no event starts a second call or replaces the one in
    flight: after any event the call in flight is still the same or has
    settled. *)
Theorem loader_while_call_in_flight :
  forall (evs : list App.Event),
    forallb AppShape.solidEvent evs = true ->
    let sys := App.run evs App.initialSys in
    ((exists c, App.inFlight sys = Some c) <->
     (exists m p, App.renderContent (App.state sys) = App.LoaderView m p)) /\
    (forall c ev,
        App.inFlight sys = Some c ->
        App.inFlight (App.step sys ev) = Some c \/
        App.inFlight (App.step sys ev) = None).
Proof.
  intros evs P sys.
  destruct (run_Shape evs App.initialSys P Shape_initial) as [C _].
  fold sys in C. pose proof (view_states (App.state sys)) as V.
  assert (L : forall c, App.inFlight sys = Some c ->
                        exists m p, App.renderContent (App.state sys) = App.LoaderView m p).
  { intros c F. rewrite F in C. apply Core_in_flight in C.
    unfold App.renderContent. destruct C as [-> | ->]; eauto. }
  split; [split|].
  - intros [c F]. exact (L c F).
  - intros [m [p R]]. rewrite R in V.
    destruct (App.inFlight sys) as [c|] eqn:F; [eauto|].
    destruct C as [[N1 N2] _]. destruct V; contradiction.
  - intros c ev F. destruct (L c F) as [m [p R]].
    destruct sys as [s call t]. cbn [App.state App.inFlight] in *. subst call.
    destruct ev as [a|file|sel| | | |a|r| ];
      cbn [App.step App.state App.inFlight App.timers];
      rewrite ?R; cbn [App.offersGenerateVideo App.offersReset];
      rewrite ?commit_inFlight; auto.
    + destruct c; rewrite commit_inFlight; auto.
    + destruct t; auto.
Qed.

Lemma loader_while_call_in_flight_witness :
  exists m p,
    App.renderContent (App.state (App.run Examples.upToRemoval App.initialSys))
    = App.LoaderView m p.
Proof.
  apply (proj1 (proj1 (loader_while_call_in_flight Examples.upToRemoval eq_refl))).
  eexists. vm_compute. reflexivity.
Defined.

(** X15: all along a run the screen is never blank: the state always has
    the artifacts its view needs. And once the video is there the view no
    longer offers to generate one. *)
Theorem screen_never_blank :
  forall (evs : list App.Event),
    forallb AppShape.solidEvent evs = true ->
    let s := App.state (App.run evs App.initialSys) in
    App.renderContent s <> App.Blank /\
    (App.appState s = AppState.video_complete ->
     App.offersGenerateVideo (App.renderContent s) = false).
Proof.
  intros evs P s.
  destruct (run_Shape evs App.initialSys P Shape_initial)
    as [[_ [_ [K1 [K2 K3]]]] _].
  fold s in K1, K2, K3. unfold App.renderContent.
  destruct (App.appState s) eqn:A; try (split; [discriminate|discriminate]).
  - (* video_loaded *)
    split; [|discriminate].
    destruct (App.frameSrc s) as [src|]; [|discriminate K3].
    rewrite K3. discriminate.
  - (* complete *)
    split; [|discriminate]. pose proof (K1 K3) as F.
    destruct (App.frameSrc s) as [src|]; [|discriminate F].
    destruct (App.processedImageSrc s) as [img|]; [|discriminate K3].
    rewrite F, K3. discriminate.
  - (* video_complete *)
    pose proof (K2 K3) as I. pose proof (K1 I) as F.
    destruct (App.frameSrc s) as [src|]; [|discriminate F].
    destruct (App.processedImageSrc s) as [img|]; [|discriminate I].
    destruct (App.processedVideoUrl s) as [url|]; [|discriminate K3].
    rewrite F, I, K3. split; [discriminate|]. intros _.
    cbn [App.offersGenerateVideo andb]. rewrite K3. reflexivity.
  - (* error *)
    split; [|discriminate]. destruct (App.isQuotaError s); discriminate.
Qed.

Lemma screen_never_blank_witness :
  App.renderContent (App.state (App.run Scenarios.videoDone App.initialSys))
  <> App.Blank.
Proof.
  exact (proj1 (screen_never_blank Scenarios.videoDone eq_refl)).
Defined.

(** X16: all along a run the progress is one of 0, 15, 40, 75 and 90, and
    it is 0 with no timer set whenever the state is not [processing]: the
    100 that [handleRemoveLogo] sets is never the progress of a state the
    application rests in. *)
Theorem progress_stays_in_stages :
  forall (evs : list App.Event),
    forallb AppShape.solidEvent evs = true ->
    let sys := App.run evs App.initialSys in
    In (App.progress (App.state sys)) [0; 15; 40; 75; 90]%Z /\
    (App.appState (App.state sys) <> AppState.processing ->
     App.progress (App.state sys) = 0%Z /\ App.timers sys = []).
Proof.
  intros evs P sys.
  destruct (run_Shape evs App.initialSys P Shape_initial) as [_ S].
  fold sys in S. unfold AppShape.Staged in S.
  destruct (App.appState (App.state sys)) eqn:A;
    try (destruct S as [S0 ST]; rewrite S0; split;
         [left; reflexivity | intros _; split; [reflexivity | exact ST]]).
  split; [|intros N; contradiction].
  unfold AppShape.stages in S. cbn [In] in S.
  destruct S as [E|[E|[E|[E|[E|[]]]]]]; injection E as <- _; cbn; auto 10.
Qed.

Lemma progress_stays_in_stages_witness :
  In (App.progress (App.state (App.run Scenarios.twoTimers App.initialSys)))
     [0; 15; 40; 75; 90]%Z.
Proof.
  exact (proj1 (progress_stays_in_stages Scenarios.twoTimers eq_refl)).
Defined.

(** ** Upload *)

(** X17: in [idle], a file whose type is not a video type changes nothing;
    a video file starts the extraction of the frame and shows the loader,
    and when the extraction settles the application is in [video_loaded]
    with the frame, or in [error] showing one fixed message whatever the
    extraction was rejected with; never anywhere else. *)
Theorem upload_lands_in_video_loaded_or_error :
  forall (sys : App.Sys) (file : App.File) (r : Outcome string),
    App.appState (App.state sys) = AppState.idle ->
    (startsWith (App.fileType file) "video/" = false ->
     App.step sys (App.ChooseFile file) = sys) /\
    (startsWith (App.fileType file) "video/" = true ->
     let sys1 := App.step sys (App.ChooseFile file) in
     let s2 := App.state (App.step sys1 (App.Settle r)) in
     App.appState (App.state sys1) = AppState.processing /\
     App.inFlight sys1 = Some (App.ExtractFrame file) /\
     App.videoFile (App.state sys1) = Some file /\
     match r with
     | Ok frameDataUrl =>
         App.appState s2 = AppState.video_loaded /\
         App.frameSrc s2 = Some frameDataUrl
     | Err _ =>
         App.appState s2 = AppState.error /\
         App.renderContent s2
         = App.ErrorPanel
             (Some "Failed to load video or extract frame. Please try another file.")
     end).
Proof.
  intros [s call t] file r A.
  destruct s as [a vf fs se pi pv k er q pr]. cbn in A. subst a.
  split; intros H.
  - unfold App.step. cbn [App.state App.appState App.renderContent].
    rewrite H. reflexivity.
  - cbv zeta. unfold App.step.
    cbn [App.state App.appState App.renderContent]. rewrite H.
    destruct r as [url|e]; vm_compute; repeat split.
Qed.

Lemma upload_lands_in_video_loaded_or_error_witness :
  App.appState
    (App.state (App.step (App.step App.initialSys (App.ChooseFile Examples.clip))
                  (App.Settle (Err (JsOther "[object Event]")))))
  = AppState.error.
Proof.
  destruct (upload_lands_in_video_loaded_or_error App.initialSys Examples.clip
              (Err (JsOther "[object Event]")) eq_refl) as [_ H].
  destruct (H eq_refl) as [_ [_ [_ [A _]]]]. exact A.
Defined.

(** ** The images handed to the service *)

Section DataUrls.
Import App Text.

Lemma untilComma_lacks (s : string) :
  lacks ","%char s = true -> untilComma s = s.
Proof.
  induction s as [|c s IH]; intros L; [reflexivity|].
  cbn [lacks] in L. apply andb_true_iff in L. destruct L as [N L].
  apply negb_true_iff in N. cbn [untilComma]. rewrite N, (IH L). reflexivity.
Qed.

Lemma afterComma_lacks (s : string) :
  lacks ","%char s = true -> afterComma s = None.
Proof.
  induction s as [|c s IH]; intros L; [reflexivity|].
  cbn [lacks] in L. apply andb_true_iff in L. destruct L as [N L].
  apply negb_true_iff in N. cbn [afterComma]. rewrite N. exact (IH L).
Qed.

Lemma afterComma_header (header rest : string) :
  lacks ","%char header = true ->
  afterComma (header ++ "," ++ rest) = Some rest.
Proof.
  induction header as [|c header IH]; intros L; [reflexivity|].
  cbn [lacks] in L. apply andb_true_iff in L. destruct L as [N L].
  apply negb_true_iff in N. cbn [append afterComma]. rewrite N. exact (IH L).
Qed.

Lemma splitComma1_dataUrl (header payload : string) :
  lacks ","%char header = true -> lacks ","%char payload = true ->
  splitComma1 (header ++ "," ++ payload) = Some payload.
Proof.
  intros H P. unfold splitComma1. rewrite (afterComma_header _ _ H).
  cbn [option_map]. rewrite (untilComma_lacks _ P). reflexivity.
Qed.

End DataUrls.

(** X18: the images go to the service as they came. After a successful
    removal, asking for the video sends exactly the data the inpainting
    returned; confirming the removal sends the payload of the data URL of
    the frame (what follows its first comma). A frame source without a
    comma does not stop the call: it is made with an undefined image. The
    data must have no comma of their own, as base64 has none. *)
Theorem images_sent_as_received :
  (forall (s : App.State) (resultBase64 : string),
      Text.lacks ","%char resultBase64 = true ->
      exists s',
        App.handleGenerateVideo_start
          (App.handleRemoveLogo_settle (Ok resultBase64) s)
        = Some (s', App.GenerateVideo (Some resultBase64))) /\
  (forall (s : App.State) (header payload : string) (sel : Position.Selection),
      Text.lacks ","%char header = true -> Text.lacks ","%char payload = true ->
      App.frameSrc s = Some (header ++ "," ++ payload) ->
      App.selection s = Some sel ->
      exists s',
        App.handleRemoveLogo_start s
        = Some (s', App.RemoveObject (Some payload) sel)) /\
  (forall (s : App.State) (src : string) (sel : Position.Selection),
      Text.lacks ","%char src = true -> src <> "" ->
      App.frameSrc s = Some src -> App.selection s = Some sel ->
      exists s',
        App.handleRemoveLogo_start s = Some (s', App.RemoveObject None sel)).
Proof.
  split; [|split].
  - intros s r L. unfold App.handleGenerateVideo_start.
    change (App.processedImageSrc (App.handleRemoveLogo_settle (Ok r) s))
      with (Some ("data:image/png;base64," ++ r)).
    cbv beta iota.
    change ("data:image/png;base64," ++ r)
      with ("data:image/png;base64" ++ "," ++ r).
    rewrite (splitComma1_dataUrl "data:image/png;base64" r eq_refl L).
    change (truthy (Some ("data:image/png;base64" ++ "," ++ r))) with true.
    cbv iota. eauto.
  - intros s header payload sel H P F S. unfold App.handleRemoveLogo_start.
    rewrite F, S.
    assert (T : truthy (Some (header ++ "," ++ payload)) = true)
      by (cbn [truthy]; destruct header; reflexivity).
    rewrite T, (splitComma1_dataUrl _ _ H P). eauto.
  - intros s src sel L N F S. unfold App.handleRemoveLogo_start. rewrite F, S.
    assert (T : truthy (Some src) = true)
      by (cbn [truthy]; destruct src; [congruence | reflexivity]).
    rewrite T. unfold App.splitComma1. rewrite (afterComma_lacks _ L). eauto.
Qed.

Lemma images_sent_as_received_witness :
  exists s',
    App.handleGenerateVideo_start
      (App.handleRemoveLogo_settle (Ok Examples.inpainted) App.initialState)
    = Some (s', App.GenerateVideo (Some "BBBB")).
Proof.
  exact (proj1 images_sent_as_received App.initialState Examples.inpainted eq_refl).
Defined.

(** ** The frame extractor *)

Section VideoFacts.
Import Video.

Lemma on_settled time ev x r :
  promise x = Some r -> promise (on time ev x) = Some r.
Proof.
  intros P. unfold on. destruct (negb (loading x)); [exact P|].
  destruct ev; cbn; rewrite ?P; reflexivity.
Qed.

Lemma events_settled time evs : forall x r,
  promise x = Some r ->
  promise (fold_left (fun x ev => on time ev x) evs x) = Some r.
Proof.
  induction evs as [|ev evs IH]; intros x r P; [exact P|].
  cbn [fold_left]. apply IH, on_settled, P.
Qed.

Lemma on_loadeddata time x :
  loading x = true ->
  on time Loadeddata x
  = {| promise := promise x; currentTime := Some time;
       revocations := revocations x; loading := loading x |}.
Proof. intros L. unfold on. rewrite L. reflexivity. Qed.

Lemma loadeddata_only time evs : forall x,
  forallb isLoadeddata evs = true -> loading x = true ->
  let x' := fold_left (fun x ev => on time ev x) evs x in
  promise x' = promise x /\ loading x' = true /\
  revocations x' = revocations x /\
  (evs <> [] -> currentTime x' = Some time).
Proof.
  induction evs as [|ev evs IH]; intros x F L; cbv zeta.
  - cbn [fold_left].
    split; [reflexivity | split; [exact L | split; [reflexivity|]]].
    intros N. congruence.
  - cbn [forallb] in F. apply andb_true_iff in F. destruct F as [E F].
    destruct ev; try discriminate E. cbn [fold_left].
    rewrite (on_loadeddata time x L).
    destruct (IH {| promise := promise x; currentTime := Some time;
                    revocations := revocations x; loading := loading x |}
                F L) as [P [L' [R T]]].
    cbv zeta in P, L', R, T. rewrite P, L', R.
    split; [reflexivity | split; [reflexivity | split; [reflexivity|]]].
    intros _.
    destruct evs as [|ev evs]; [reflexivity | apply T; discriminate].
Qed.

Lemma on_seeked time dataUrl x :
  loading x = true -> promise x = None ->
  promise (on time (Seeked dataUrl) x) = Some (Ok dataUrl).
Proof. intros L P. unfold on. rewrite L. cbn. rewrite P. reflexivity. Qed.

Lemma on_error time x :
  loading x = true -> promise x = None ->
  promise (on time Error x) = Some (Err (newError "Error loading video file.")).
Proof. intros L P. unfold on. rewrite L. cbn. rewrite P. reflexivity. Qed.

End VideoFacts.

(** X19: [extractFrame] settles with the first event that is a seek or an
    error: after any number of [loadeddata] events, each of which only
    sets the current time, a seek resolves it with the data URL of the
    frame and an error rejects it with a fixed error, and nothing that
    comes later changes that. Until then it is pending. Without a 2d
    context it rejects at once, the video is not loaded and no event
    changes anything. *)
Theorem extractFrame_settles_once :
  forall (time : Q) (pre post : list Video.Event),
    forallb Video.isLoadeddata pre = true ->
    (forall dataUrl,
        Video.promise (Video.extractFrame true time (pre ++ Video.Seeked dataUrl :: post))
        = Some (Ok dataUrl)) /\
    Video.promise (Video.extractFrame true time (pre ++ Video.Error :: post))
    = Some (Err (newError "Error loading video file.")) /\
    Video.promise (Video.extractFrame true time pre) = None /\
    (pre <> [] -> Video.currentTime (Video.extractFrame true time pre) = Some time) /\
    (forall events,
        Video.extractFrame false time events
        = {| Video.promise := Some (Err (newError "Could not get canvas context."));
             Video.currentTime := None; Video.revocations := 0;
             Video.loading := false |}).
Proof.
  intros time pre post F.
  destruct (loadeddata_only time pre (Video.start true) F eq_refl)
    as [P [L [R T]]].
  assert (S : forall ev r,
             Video.promise (Video.on time ev
                              (fold_left (fun x ev => Video.on time ev x) pre
                                 (Video.start true))) = Some r ->
             Video.promise (Video.extractFrame true time (pre ++ ev :: post)) = Some r).
  { intros ev r H. unfold Video.extractFrame. rewrite fold_left_app.
    cbn [fold_left]. apply events_settled, H. }
  split; [|split; [|split; [|split]]].
  - intros dataUrl. apply S, on_seeked; [exact L | exact P].
  - apply S, on_error; [exact L | exact P].
  - exact P.
  - exact T.
  - intros events. unfold Video.extractFrame.
    induction events as [|ev events IH] using rev_ind; [reflexivity|].
    rewrite fold_left_app. cbn [fold_left]. rewrite IH. reflexivity.
Qed.

Lemma extractFrame_settles_once_witness :
  Video.promise
    (Video.extractFrame true Video.defaultTime
       ([Video.Loadeddata] ++ Video.Seeked Examples.frame :: [Video.Error]))
  = Some (Ok Examples.frame).
Proof.
  exact (proj1 (extractFrame_settles_once Video.defaultTime [Video.Loadeddata]
                  [Video.Error] eq_refl) Examples.frame).
Defined.

(** ** The backoff without a suggested delay *)

(** X20: when no error text of the operation carries a suggested delay,
    the waits of a run of [withRetry] are none, 5 seconds, or 5 seconds
    then 10 seconds. *)
Theorem backoff_schedule :
  forall (W T : Type) (apiCall : W -> Outcome T * W) (serviceName : string) (w : W),
    (forall w0 e w1, apiCall w0 = (Err e, w1) -> Retry.noDelayField (toString e)) ->
    let waits := Retry.delays (snd (Retry.withRetry apiCall serviceName w)) in
    waits = [] \/ waits = [5000%Z] \/ waits = [5000%Z; 10000%Z].
Proof.
  intros W T apiCall serviceName w N waits. unfold waits, Retry.withRetry.
  change (Z.to_nat Retry.MAX_RETRIES) with 3%nat.
  assert (B : forall i w0 e w1, apiCall w0 = (Err e, w1) ->
                Retry.retryDelay i (toString e) = (5000 * 2 ^ i)%Z).
  { intros i w0 e w1 C. apply RetryFacts.retryDelay_backoff, (N _ _ _ C). }
  destruct (apiCall w) as [[v|e] w1] eqn:C0.
  { rewrite (withRetryFrom_ok _ _ _ _ _ _ _ _ _ _ C0). left. reflexivity. }
  destruct (Retry.isQuotaError (toString e)) eqn:Q0.
  2:{ rewrite (withRetryFrom_fatal _ _ _ _ _ _ _ _ _ _ C0 Q0). left. reflexivity. }
  rewrite (withRetryFrom_retry _ _ _ _ _ _ _ _ _ _ C0 Q0) by (unfold Retry.MAX_RETRIES; lia).
  rewrite (B _ _ _ _ C0).
  destruct (apiCall w1) as [[v|e'] w2] eqn:C1.
  { rewrite (withRetryFrom_ok _ _ _ _ _ _ _ _ _ _ C1). right. left. reflexivity. }
  destruct (Retry.isQuotaError (toString e')) eqn:Q1.
  2:{ rewrite (withRetryFrom_fatal _ _ _ _ _ _ _ _ _ _ C1 Q1). right. left. reflexivity. }
  rewrite (withRetryFrom_retry _ _ _ _ _ _ _ _ _ _ C1 Q1) by (unfold Retry.MAX_RETRIES; lia).
  rewrite (B _ _ _ _ C1). right. right.
  destruct (apiCall w2) as [[v|e''] w3] eqn:C2.
  { rewrite (withRetryFrom_ok _ _ _ _ _ _ _ _ _ _ C2). reflexivity. }
  destruct (Retry.isQuotaError (toString e'')) eqn:Q2.
  - rewrite (withRetryFrom_last _ _ _ _ _ _ _ _ _ _ C2 Q2) by (unfold Retry.MAX_RETRIES; lia).
    reflexivity.
  - rewrite (withRetryFrom_fatal _ _ _ _ _ _ _ _ _ _ C2 Q2). reflexivity.
Qed.

Lemma backoff_schedule_witness :
  Retry.delays (snd (Retry.withRetry (Examples.flaky 3) "image processing" 0%nat))
  = [5000%Z; 10000%Z].
Proof.
  destruct (backoff_schedule nat Z (Examples.flaky 3) "image processing" 0%nat)
    as [E|[E|E]].
  - intros w0 e w1. unfold Examples.flaky.
    destruct (w0 <? 3)%nat; intros H; [|discriminate H].
    injection H as <- _. apply matchRetryDelay_none_inv. reflexivity.
  - vm_compute in E. discriminate E.
  - vm_compute in E. discriminate E.
  - exact E.
Defined.
